(** * Menubox2: pop-up menus (chzager/menubox, [menubox2.js])

    A shallow embedding of the menubox object model: the objects live in a
    store indexed by allocation order, the registry [Menubox2.instances] and
    every item collection are insertion-ordered JavaScript [Map]s, elements
    carry a class list, a dataset and an inline style, and the host document
    (layout measurements, timers, the console) is explicit state. *)

From Stdlib Require Import ZArith Lia.
From stdpp Require Import base option list strings numbers.

Open Scope string_scope.
Open Scope Z_scope.
Open Scope list_scope.

(** ** JavaScript values and insertion-ordered maps *)

(** The values a caller can hand to a property setter or store as a context. *)
Inductive JSValue : Type :=
| JUndefined
| JNull
| JBool (b : bool)
| JNumber (z : Z)
| JString (s : string)
| JObject (o : nat).

(** [typeof val === "boolean"] *)
Definition typeof_boolean (val : JSValue) : bool :=
  match val with JBool _ => true | _ => false end.

(** The outcome of an operation on a state that may throw: the state it
    returns, or the state as it is when the [TypeError] leaves it. *)
Inductive JSResult (A : Type) : Type :=
| Returns (a : A)
| ThrowsTypeError (state : A) (message : string).
Arguments Returns {A} a.
Arguments ThrowsTypeError {A} state message.

(** A JavaScript [Map] (and a plain object used as a record of string keys):
    an association list in insertion order.  [set] on a key that is present
    replaces the value in place and keeps the position; on a new key it
    appends. *)
Module JSMap.
Section ops.
Context {V : Type}.

Definition t := list (string * V).

Fixpoint get (k : string) (m : list (string * V)) : option V :=
  match m with
  | [] => None
  | (k', v) :: m' => if String.eqb k' k then Some v else get k m'
  end.

Definition has (k : string) (m : list (string * V)) : bool :=
  match get k m with Some _ => true | None => false end.

Fixpoint set (k : string) (v : V) (m : list (string * V)) : list (string * V) :=
  match m with
  | [] => [(k, v)]
  | (k', v') :: m' =>
      if String.eqb k' k then (k, v) :: m' else (k', v') :: set k v m'
  end.

Fixpoint remove (k : string) (m : list (string * V)) : list (string * V) :=
  match m with
  | [] => []
  | (k', v') :: m' =>
      if String.eqb k' k then remove k m' else (k', v') :: remove k m'
  end.

Definition keys (m : list (string * V)) : list string := map fst m.
Definition values (m : list (string * V)) : list V := map snd m.

(** [Object.assign(target, source)] *)
Definition assign (target source : list (string * V)) : list (string * V) :=
  fold_left (fun acc kv => set (fst kv) (snd kv) acc) source target.
End ops.
End JSMap.

(** [map.get(k)] where [k] may be [undefined]: no entry has that key, since
    every key stored by this program is a string. *)
Definition get_opt {V : Type} (k : option string) (m : list (string * V)) : option V :=
  match k with
  | Some s => JSMap.get s m
  | None => None
  end.

(** ** Elements *)

(** A CSS value written to an inline style: a length [n + "px"] or a keyword. *)
Inductive StyleValue : Type :=
| Px (z : Z)
| Tok (s : string).

Definition StyleValue_eqb (a b : StyleValue) : bool :=
  match a, b with
  | Px x, Px y => Z.eqb x y
  | Tok s, Tok t => String.eqb s t
  | _, _ => false
  end.

Record HTMLElement : Type := mkElement {
  classList : list string;
  dataset : list (string * string);
  style : list (string * StyleValue);
  textContent : option string;
  scrollTop : Z
}.

Definition createElement : HTMLElement :=
  {| classList := []; dataset := []; style := []; textContent := None; scrollTop := 0 |}.

Definition set_classList (c : list string) (e : HTMLElement) : HTMLElement :=
  {| classList := c; dataset := dataset e; style := style e;
     textContent := textContent e; scrollTop := scrollTop e |}.

Definition set_dataset (d : list (string * string)) (e : HTMLElement) : HTMLElement :=
  {| classList := classList e; dataset := d; style := style e;
     textContent := textContent e; scrollTop := scrollTop e |}.

Definition set_style (s : list (string * StyleValue)) (e : HTMLElement) : HTMLElement :=
  {| classList := classList e; dataset := dataset e; style := s;
     textContent := textContent e; scrollTop := scrollTop e |}.

Definition set_textContent (t : option string) (e : HTMLElement) : HTMLElement :=
  {| classList := classList e; dataset := dataset e; style := style e;
     textContent := t; scrollTop := scrollTop e |}.

Definition set_scrollTop (z : Z) (e : HTMLElement) : HTMLElement :=
  {| classList := classList e; dataset := dataset e; style := style e;
     textContent := textContent e; scrollTop := z |}.

(** [DOMTokenList]: an ordered set of class names. *)
Module ClassList.
Definition contains (token : string) (l : list string) : bool :=
  existsb (String.eqb token) l.

Definition add (token : string) (l : list string) : list string :=
  if contains token l then l else l ++ [token].

Definition add_all (tokens : list string) (l : list string) : list string :=
  fold_left (fun acc t => add t acc) tokens l.

Definition remove (token : string) (l : list string) : list string :=
  List.filter (fun t => negb (String.eqb token t)) l.

(** [classList.toggle(token, force)] *)
Definition toggle (token : string) (force : bool) (l : list string) : list string :=
  if force then add token l else remove token l.
End ClassList.

(** [element.style[key] = value]; assigning [null] removes the property. *)
Definition style_set (key : string) (v : StyleValue) (e : HTMLElement) : HTMLElement :=
  set_style (JSMap.set key v (style e)) e.

Definition style_clear (key : string) (e : HTMLElement) : HTMLElement :=
  set_style (JSMap.remove key (style e)) e.

Definition style_get (key : string) (e : HTMLElement) : option StyleValue :=
  JSMap.get key (style e).

(** The pixel length held by a style property, [0] when it holds none. *)
Definition style_px (key : string) (e : HTMLElement) : Z :=
  match style_get key e with
  | Some (Px z) => z
  | _ => 0
  end.

(** ** Menu items *)

(** Identity of a [Menubox2] object: its allocation index in the store. *)
Abbreviation ref := nat (only parsing).

(** Identity of a caller-supplied function. *)
Abbreviation Callback := nat (only parsing).

Record Menubox2Item : Type := mkItem {
  key : option string;
  menubox : ref;
  element : HTMLElement;
  submenu : option ref;
  (** the callback captured by the item element's own [onclick], if installed *)
  onclick : option Callback
}.

Definition set_element (e : HTMLElement) (it : Menubox2Item) : Menubox2Item :=
  {| key := key it; menubox := menubox it; element := e;
     submenu := submenu it; onclick := onclick it |}.

(** [item.submenu instanceof Menubox2] *)
Definition has_submenu (it : Menubox2Item) : bool :=
  match submenu it with Some _ => true | None => false end.

Module Item.
(** [get checked] *)
Definition checked (it : Menubox2Item) : bool :=
  ClassList.contains "checked" (classList (element it)).

(** [set checked (val)] *)
Definition set_checked (val : JSValue) (it : Menubox2Item) : JSResult Menubox2Item :=
  match val with
  | JBool b =>
      Returns (set_element
                 (set_classList (ClassList.toggle "checked" (Bool.eqb b true)
                                   (classList (element it))) (element it)) it)
  | _ => ThrowsTypeError it "Boolean value expected."
  end.

(** [get enabled] *)
Definition enabled (it : Menubox2Item) : bool :=
  Bool.eqb (ClassList.contains "disabled" (classList (element it))) false.

(** [set enabled (val)] *)
Definition set_enabled (val : JSValue) (it : Menubox2Item) : JSResult Menubox2Item :=
  match val with
  | JBool b =>
      Returns (set_element
                 (set_classList (ClassList.toggle "disabled" (Bool.eqb b false)
                                   (classList (element it))) (element it)) it)
  | _ => ThrowsTypeError it "Boolean value expected."
  end.

(** [get label] *)
Definition label (it : Menubox2Item) : option string :=
  textContent (element it).
End Item.

(** ** Definitions handed to the constructor *)

Inductive SelectMode : Type :=
| normal
| persistent
| multiselect
| multiselect_interactive.

Definition SelectMode_eqb (a b : SelectMode) : bool :=
  match a, b with
  | normal, normal | persistent, persistent
  | multiselect, multiselect
  | multiselect_interactive, multiselect_interactive => true
  | _, _ => false
  end.

(** [Menubox2Definition] and [Menubox2ItemProperties] of [menubox2.d.js].
    An absent property is [None] (or the empty list / map); [opt_css] holds
    the tokens of the space-separated string; [separator] is the truthiness
    of the entry's [separator] property; the item renderer is the default
    [Menubox2ItemRenderer]. *)
Inductive Menubox2Definition : Type := mkDefinition {
  opt_css : option (list string);
  opt_position : option string;
  opt_adjustment : list (string * string);
  opt_transistions : list (string * (StyleValue * StyleValue));
  opt_selectMode : option SelectMode;
  opt_callback : option Callback;
  opt_items : list Menubox2ItemProperties;
  opt_submenuDelay : option Z
}
with Menubox2ItemProperties : Type := mkProperties {
  separator : bool;
  prop_key : option string;
  prop_label : option string;
  prop_callback : option Callback;
  prop_checked : option bool;
  prop_enabled : option bool;
  prop_cssClasses : list string;
  prop_submenu : option Menubox2Definition
}.

(** The three properties the item constructor lays over a submenu definition:
    [Object.assign({}, properties.submenu, {adjustment, css, callback})]. *)
Record SubmenuOverride : Type := mkOverride {
  forced_adjustment : list (string * string);
  forced_css : list string;
  forced_callback : option Callback
}.

(** ** The host document *)

Record DOMRect : Type := mkRect {
  rect_left : Z;
  rect_top : Z;
  rect_width : Z;
  rect_height : Z
}.

Definition rect_right (r : DOMRect) : Z := rect_left r + rect_width r.
Definition rect_bottom (r : DOMRect) : Z := rect_top r + rect_height r.

(** What the layout engine reports for one menubox: the size of its element,
    of its wrapper and of its item list, and the computed top padding and
    border.  Lengths are whole CSS pixels. *)
Record Metrics : Type := mkMetrics {
  offsetWidth : Z;
  offsetHeight : Z;
  wrapper_offsetWidth : Z;
  wrapper_offsetHeight : Z;
  items_offsetHeight : Z;
  paddingTop : Z;
  borderTopWidth : Z
}.

Record Host : Type := mkHost {
  visualViewport_width : Z;
  visualViewport_height : Z;
  (** [document.documentElement.scrollTop], also [window.scrollY] *)
  document_scrollTop : Z;
  (** [document.documentElement.scrollLeft], also [window.scrollX] *)
  document_scrollLeft : Z;
  metrics : ref -> Metrics;
  (** bounding rectangle of the element of item [i] of menubox [r] *)
  itemRect : ref -> nat -> DOMRect
}.

(** Where a pointer event landed, relative to the menubox that handles it. *)
Inductive EventTarget : Type :=
| OnNode (i : nat)
| OnItemsContainer
| OnWrapper
| OnMenubox
| Elsewhere.

Record MouseEvent : Type := mkMouseEvent {
  clientX : Z;
  clientY : Z;
  target : EventTarget
}.

(** ** Menuboxes and the world *)

(** A child of [div.menubox-items]: a separator or the element of an item.
    Every constructed [Menubox2Item] is rendered exactly once, so the list of
    nodes is also the store of the menubox's item objects; the item
    collection refers to them by position. *)
Inductive Node : Type :=
| HrNode (e : HTMLElement)
| ItemNode (it : Menubox2Item).

Definition node_element (n : Node) : HTMLElement :=
  match n with
  | HrNode e => e
  | ItemNode it => element it
  end.

Record Menubox2 : Type := mkMenubox {
  boxId : string;
  parentMenubox : option ref;
  selectMode : SelectMode;
  callback : option Callback;
  adjustment : list (string * string);
  transistions : list (string * (StyleValue * StyleValue));
  submenuDelay : Z;
  context : JSValue;
  (** [this.element], its [div.menubox-wrapper] and [div.menubox-items] *)
  boxElement : HTMLElement;
  wrapperElement : HTMLElement;
  itemsElement : HTMLElement;
  nodes : list Node;
  (** [this.items]: key to item, the item given by its position in [nodes] *)
  items : list (string * nat)
}.

Definition set_boxElement (e : HTMLElement) (m : Menubox2) : Menubox2 :=
  {| boxId := boxId m; parentMenubox := parentMenubox m; selectMode := selectMode m;
     callback := callback m; adjustment := adjustment m; transistions := transistions m;
     submenuDelay := submenuDelay m; context := context m; boxElement := e;
     wrapperElement := wrapperElement m; itemsElement := itemsElement m;
     nodes := nodes m; items := items m |}.

Definition set_itemsElement (e : HTMLElement) (m : Menubox2) : Menubox2 :=
  {| boxId := boxId m; parentMenubox := parentMenubox m; selectMode := selectMode m;
     callback := callback m; adjustment := adjustment m; transistions := transistions m;
     submenuDelay := submenuDelay m; context := context m; boxElement := boxElement m;
     wrapperElement := wrapperElement m; itemsElement := e;
     nodes := nodes m; items := items m |}.

Definition set_context (c : JSValue) (m : Menubox2) : Menubox2 :=
  {| boxId := boxId m; parentMenubox := parentMenubox m; selectMode := selectMode m;
     callback := callback m; adjustment := adjustment m; transistions := transistions m;
     submenuDelay := submenuDelay m; context := c; boxElement := boxElement m;
     wrapperElement := wrapperElement m; itemsElement := itemsElement m;
     nodes := nodes m; items := items m |}.

Definition set_nodes (n : list Node) (m : Menubox2) : Menubox2 :=
  {| boxId := boxId m; parentMenubox := parentMenubox m; selectMode := selectMode m;
     callback := callback m; adjustment := adjustment m; transistions := transistions m;
     submenuDelay := submenuDelay m; context := context m; boxElement := boxElement m;
     wrapperElement := wrapperElement m; itemsElement := itemsElement m;
     nodes := n; items := items m |}.

Definition set_items (i : list (string * nat)) (m : Menubox2) : Menubox2 :=
  {| boxId := boxId m; parentMenubox := parentMenubox m; selectMode := selectMode m;
     callback := callback m; adjustment := adjustment m; transistions := transistions m;
     submenuDelay := submenuDelay m; context := context m; boxElement := boxElement m;
     wrapperElement := wrapperElement m; itemsElement := itemsElement m;
     nodes := nodes m; items := i |}.

(** The deferred call armed by hovering an item that has a submenu:
    [() => this.submenu.popup(evt, this.menubox.context, this.element)]. *)
Record TimerTask : Type := mkTask {
  task_box : ref;
  task_item : nat;
  task_event : MouseEvent;
  task_delay : Z
}.

Record World : Type := mkWorld {
  (** every [Menubox2] object ever allocated *)
  heap : list Menubox2;
  (** [Menubox2.instances] *)
  instances : list (string * ref);
  (** the menubox elements attached to [document.body], in document order *)
  body : list ref;
  (** [Menubox2.currentSubmenuTimerId], [undefined] until first armed *)
  currentSubmenuTimerId : option nat;
  (** the host's pending timers and the handle it will hand out next *)
  timers : list (nat * TimerTask);
  nextTimerId : nat;
  (** the calls made to caller-supplied callbacks, oldest first *)
  calls : list (Callback * (ref * nat));
  (** [console.info] output, oldest first *)
  infos : list string;
  host : Host
}.

Definition set_heap (h : list Menubox2) (w : World) : World :=
  {| heap := h; instances := instances w; body := body w;
     currentSubmenuTimerId := currentSubmenuTimerId w; timers := timers w;
     nextTimerId := nextTimerId w; calls := calls w; infos := infos w; host := host w |}.

Definition set_instances (i : list (string * ref)) (w : World) : World :=
  {| heap := heap w; instances := i; body := body w;
     currentSubmenuTimerId := currentSubmenuTimerId w; timers := timers w;
     nextTimerId := nextTimerId w; calls := calls w; infos := infos w; host := host w |}.

Definition set_body (b : list ref) (w : World) : World :=
  {| heap := heap w; instances := instances w; body := b;
     currentSubmenuTimerId := currentSubmenuTimerId w; timers := timers w;
     nextTimerId := nextTimerId w; calls := calls w; infos := infos w; host := host w |}.

Definition set_timers (t : list (nat * TimerTask)) (w : World) : World :=
  {| heap := heap w; instances := instances w; body := body w;
     currentSubmenuTimerId := currentSubmenuTimerId w; timers := t;
     nextTimerId := nextTimerId w; calls := calls w; infos := infos w; host := host w |}.

Definition set_calls (c : list (Callback * (ref * nat))) (w : World) : World :=
  {| heap := heap w; instances := instances w; body := body w;
     currentSubmenuTimerId := currentSubmenuTimerId w; timers := timers w;
     nextTimerId := nextTimerId w; calls := c; infos := infos w; host := host w |}.

Definition set_infos (i : list string) (w : World) : World :=
  {| heap := heap w; instances := instances w; body := body w;
     currentSubmenuTimerId := currentSubmenuTimerId w; timers := timers w;
     nextTimerId := nextTimerId w; calls := calls w; infos := i; host := host w |}.

Definition set_host (h : Host) (w : World) : World :=
  {| heap := heap w; instances := instances w; body := body w;
     currentSubmenuTimerId := currentSubmenuTimerId w; timers := timers w;
     nextTimerId := nextTimerId w; calls := calls w; infos := infos w; host := h |}.

(** The world of a freshly loaded document.  Timer handles are positive
    integers, handed out in increasing order. *)
Definition initial_world (h : Host) : World :=
  {| heap := []; instances := []; body := []; currentSubmenuTimerId := None;
     timers := []; nextTimerId := 1; calls := []; infos := []; host := h |}.

(** Replace the object stored at [r]. *)
Definition store (r : ref) (m : Menubox2) (w : World) : World :=
  set_heap (<[r := m]> (heap w)) w.

(** The item object at position [i] of a menubox's nodes. *)
Definition item_at (m : Menubox2) (i : nat) : option Menubox2Item :=
  match nodes m !! i with
  | Some (ItemNode it) => Some it
  | _ => None
  end.

(** Run a loop body over a list, stopping at the first failure. *)
Fixpoint for_each {A S : Type} (body : S -> A -> option S) (l : list A) (s : S) : option S :=
  match l with
  | [] => Some s
  | a :: l' =>
      match body s a with
      | Some s' => for_each body l' s'
      | None => None
      end
  end.

(** ** Timers *)

(** [setTimeout(task, delay)]: returns the handle. *)
Definition setTimeout (task : TimerTask) (w : World) : nat * World :=
  let tid := nextTimerId w in
  (tid,
   {| heap := heap w; instances := instances w; body := body w;
      currentSubmenuTimerId := currentSubmenuTimerId w;
      timers := timers w ++ [(tid, task)];
      nextTimerId := S tid; calls := calls w; infos := infos w; host := host w |}).

(** [clearTimeout(tid)]: a handle that is not pending is ignored. *)
Definition clearTimeout (tid : nat) (w : World) : World :=
  set_timers (List.filter (fun t => negb (Nat.eqb (fst t) tid)) (timers w)) w.

(** [if (Menubox2.currentSubmenuTimerId) { clearTimeout(...) }] *)
Definition clearCurrentSubmenuTimer (w : World) : World :=
  match currentSubmenuTimerId w with
  | Some tid => if Nat.ltb 0 tid then clearTimeout tid w else w
  | None => w
  end.

Definition set_currentSubmenuTimerId (tid : nat) (w : World) : World :=
  {| heap := heap w; instances := instances w; body := body w;
     currentSubmenuTimerId := Some tid; timers := timers w;
     nextTimerId := nextTimerId w; calls := calls w; infos := infos w; host := host w |}.

(** ** Visibility *)

Definition isMultiselect (m : Menubox2) : bool :=
  existsb (SelectMode_eqb (selectMode m)) [multiselect; multiselect_interactive].

(** The value [_setVisibility] writes for one entry of the transition table. *)
Definition transistion_value (h : Metrics) (visible : bool)
    (transistionEntry : string * (StyleValue * StyleValue)) : StyleValue :=
  let styleKey := fst transistionEntry in
  let styleValue :=
    if visible then snd (snd transistionEntry) else fst (snd transistionEntry) in
  if String.eqb styleKey "height" && StyleValue_eqb styleValue (Tok "auto")
  then Px (wrapper_offsetHeight h)
  else if String.eqb styleKey "width" && StyleValue_eqb styleValue (Tok "auto")
  then Px (wrapper_offsetWidth h)
  else styleValue.

Definition apply_transistions (h : Metrics) (visible : bool)
    (table : list (string * (StyleValue * StyleValue))) (e : HTMLElement) : HTMLElement :=
  fold_left (fun e entry => style_set (fst entry) (transistion_value h visible entry) e)
            table e.

Definition _setVisibility (visible : bool) (r : ref) (w : World) : option World :=
  match heap w !! r with
  | Some m =>
      Some (store r (set_boxElement
                       (apply_transistions (metrics (host w) r) visible
                          (transistions m) (boxElement m)) m) w)
  | None => None
  end.

(** The menubox as [_setVisibility] leaves it. *)
Definition transit (h : Host) (visible : bool) (r : ref) (m : Menubox2) : Menubox2 :=
  set_boxElement
    (apply_transistions (metrics h r) visible (transistions m) (boxElement m)) m.

(** [this.element.style.visibility === "visible"], the test [toggle] makes. *)
Definition is_visible (m : Menubox2) : bool :=
  match style_get "visibility" (boxElement m) with
  | Some v => StyleValue_eqb v (Tok "visible")
  | None => false
  end.

(** ** Closing *)

(** [close(closeSubmenus)] and [closeSubmenus()].  The two call each other
    and follow references through the store, so both take [fuel]: the depth
    of calls they may still make.  [None] is a run that exhausts it or
    reaches a reference that is not in the store. *)
Fixpoint close (fuel : nat) (closeSubmenus_true : bool) (r : ref) (w : World)
    {struct fuel} : option World :=
  match fuel with
  | O => None
  | S fuel' =>
      match _setVisibility false r w with
      | Some w1 =>
          if closeSubmenus_true then closeSubmenus fuel' r w1
          else
            match heap w1 !! r with
            | Some m =>
                match parentMenubox m with
                | Some p => close fuel' false p w1
                | None => Some w1
                end
            | None => None
            end
      | None => None
      end
  end
with closeSubmenus (fuel : nat) (r : ref) (w : World) {struct fuel} : option World :=
  match fuel with
  | O => None
  | S fuel' =>
      match heap w !! r with
      | Some m =>
          for_each
            (fun w' i =>
               match item_at m i with
               | Some menuItem =>
                   match submenu menuItem with
                   | Some s =>
                       match closeSubmenus fuel' s w' with
                       | Some w2 => close fuel' true s w2
                       | None => None
                       end
                   | None => Some w'
                   end
               | None => Some w'
               end)
            (JSMap.values (items m))
            (clearCurrentSubmenuTimer w)
      | None => None
      end
  end.

(** [Menubox2.closeAll()] *)
Definition closeAll (fuel : nat) (w : World) : option World :=
  for_each (fun w' r => close fuel false r w') (JSMap.values (instances w)) w.

(** ** Positioning and [popup] *)

(** [element.style.position === "fixed"]; the inline position set by the
    constructor is also the computed one. *)
Definition position_fixed (e : HTMLElement) : bool :=
  match style_get "position" e with
  | Some v => StyleValue_eqb v (Tok "fixed")
  | None => false
  end.

(** [element.getBoundingClientRect()] for a menubox element: a positioned
    child of the body, laid out at its inline [left]/[top] (document
    coordinates unless fixed) with the size the layout engine reports. *)
Definition getBoundingClientRect (h : Host) (r : ref) (e : HTMLElement) : DOMRect :=
  {| rect_left := style_px "left" e - (if position_fixed e then 0 else document_scrollLeft h);
     rect_top := style_px "top" e - (if position_fixed e then 0 else document_scrollTop h);
     rect_width := offsetWidth (metrics h r);
     rect_height := offsetHeight (metrics h r) |}.

Definition adjustment_is (dir value : string) (m : Menubox2) : bool :=
  match JSMap.get dir (adjustment m) with
  | Some v => String.eqb v value
  | None => false
  end.

(** [_adjustToAnchor(menubox, anchorElement)]; the anchor is given by its
    bounding rectangle, the only thing read from it. *)
Definition _adjustToAnchor (h : Host) (r : ref) (m : Menubox2) (anchorRect : DOMRect)
    (e : HTMLElement) : HTMLElement :=
  let mt := metrics h r in
  let x :=
    if adjustment_is "horizontal" "before" m then rect_left anchorRect - offsetWidth mt
    else if adjustment_is "horizontal" "right" m then rect_right anchorRect - offsetWidth mt
    else if adjustment_is "horizontal" "after" m then rect_right anchorRect
    else rect_left anchorRect in
  let y :=
    if adjustment_is "vertical" "submenu-top" m
    then rect_top anchorRect - paddingTop mt - borderTopWidth mt
    else if adjustment_is "vertical" "above" m then rect_top anchorRect - offsetHeight mt
    else if adjustment_is "vertical" "top" m then rect_top anchorRect
    else if adjustment_is "vertical" "bottom" m then rect_bottom anchorRect - offsetHeight mt
    else rect_bottom anchorRect in
  let y' := if position_fixed e then y else y + document_scrollTop h in
  let x' := if position_fixed e then x else x + document_scrollLeft h in
  style_set "left" (Px x') (style_set "top" (Px y') e).

(** The part of [popup] under "prevent menubox exceeds viewport": from the
    measured rectangle, the element and the item list as placed so far, the
    element and the item list as clamped. *)
Definition clamp_to_viewport (h : Host) (r : ref) (scroll_top scroll_left : Z)
    (elementRect : DOMRect) (e itemsElement : HTMLElement) : HTMLElement * HTMLElement :=
  let e1 :=
    if Z.ltb (visualViewport_width h) (rect_right elementRect)
    then style_set "left"
           (Px (Z.max scroll_left
                  (scroll_left + visualViewport_width h - rect_width elementRect))) e
    else e in
  if Z.ltb (visualViewport_height h) (rect_bottom elementRect)
  then
    let e2 :=
      style_set "top"
        (Px (Z.max scroll_top
               (scroll_top + visualViewport_height h - rect_height elementRect))) e1 in
    if Z.ltb (visualViewport_height h) (rect_height elementRect)
    then
      (e2,
       style_set "overflowY" (Tok "scroll")
         (style_set "height"
            (Px (items_offsetHeight (metrics h r)
                 - (rect_height elementRect - visualViewport_height h)))
            itemsElement))
    else (e2, itemsElement)
  else (e1, itemsElement).

(** [scrollPos] of [popup]: the scroll offsets of the document, or zero for
    a menubox of fixed position. *)
Definition scrollPos_top (h : Host) (m : Menubox2) : Z :=
  if position_fixed (boxElement m) then 0 else document_scrollTop h.

Definition scrollPos_left (h : Host) (m : Menubox2) : Z :=
  if position_fixed (boxElement m) then 0 else document_scrollLeft h.

(** The element of menubox [m] as [popup] has placed it when it measures
    it: at the pointer when an event but no anchor is given, adjusted to the
    anchor when there is one, where it was otherwise. *)
Definition placed_element (h : Host) (r : ref) (m : Menubox2)
    (mouseEvent : option MouseEvent) (anchorElement : option DOMRect) : HTMLElement :=
  let e1 :=
    match mouseEvent, anchorElement with
    | Some ev, None =>
        style_set "left" (Px (clientX ev + scrollPos_left h m))
          (style_set "top" (Px (clientY ev + scrollPos_top h m)) (boxElement m))
    | _, _ => boxElement m
    end in
  match anchorElement with
  | Some anchorRect => _adjustToAnchor h r m anchorRect e1
  | None => e1
  end.

(** The item list element as [popup] resets it before measuring. *)
Definition reset_itemsElement (m : Menubox2) : HTMLElement :=
  style_clear "overflowY" (style_clear "height" (set_scrollTop 0 (itemsElement m))).

(** [popup(mouseEvent, context, anchorElement)] *)
Definition popup (fuel : nat) (mouseEvent : option MouseEvent) (ctx : JSValue)
    (anchorElement : option DOMRect) (r : ref) (w : World) : option World :=
  match heap w !! r with
  | None => None
  | Some m0 =>
      match (match parentMenubox m0 with
             | None => closeAll fuel w
             | Some _ => Some w
             end) with
      | None => None
      | Some w1 =>
          match heap w1 !! r with
          | None => None
          | Some m =>
              let h := host w1 in
              let e := placed_element h r m mouseEvent anchorElement in
              let elementRect := getBoundingClientRect h r e in
              let clamped :=
                clamp_to_viewport h r (scrollPos_top h m) (scrollPos_left h m)
                  elementRect e (reset_itemsElement m) in
              _setVisibility true r
                (store r (set_context ctx
                            (set_itemsElement (snd clamped)
                               (set_boxElement (fst clamped) m))) w1)
          end
      end
  end.

(** [toggle(mouseEvent, context, anchorElement)]: the returned flag and the
    world after the call. *)
Definition toggle (fuel : nat) (mouseEvent : MouseEvent) (ctx : JSValue)
    (anchorElement : option DOMRect) (r : ref) (w : World) : option (bool * World) :=
  match heap w !! r with
  | None => None
  | Some m =>
      let result := negb (is_visible m) in
      if result
      then match popup fuel (Some mouseEvent) ctx anchorElement r w with
           | Some w' => Some (result, w')
           | None => None
           end
      else match close fuel true r w with
           | Some w' => Some (result, w')
           | None => None
           end
  end.

(** [getCheckedItems()]: the checked items, each given by its position in
    [nodes]. *)
Definition getCheckedItems (m : Menubox2) : list nat :=
  fold_left
    (fun result i =>
       match item_at m i with
       | Some menuItem => if Item.checked menuItem then result ++ [i] else result
       | None => result
       end)
    (JSMap.values (items m)) [].

(** ** Click dispatch *)

(** The elements from the event target up to the menubox element. *)
Definition target_path (m : Menubox2) (t : EventTarget) : list HTMLElement :=
  match t with
  | OnNode i =>
      match nodes m !! i with
      | Some n => [node_element n; itemsElement m; wrapperElement m; boxElement m]
      | None => []
      end
  | OnItemsContainer => [itemsElement m; wrapperElement m; boxElement m]
  | OnWrapper => [wrapperElement m; boxElement m]
  | OnMenubox => [boxElement m]
  | Elsewhere => []
  end.

(** [event.target.closest(".menubox-item")?.dataset?.key] *)
Definition clicked_key (m : Menubox2) (t : EventTarget) : option string :=
  match List.find (fun e => ClassList.contains "menubox-item" (classList e))
                  (target_path m t) with
  | Some e => JSMap.get "key" (dataset e)
  | None => None
  end.

(** Write an item object back after a setter has run on it. *)
Definition store_item (r : ref) (i : nat) (it : Menubox2Item) (w : World) : World :=
  match heap w !! r with
  | Some m => store r (set_nodes (<[i := ItemNode it]> (nodes m)) m) w
  | None => w
  end.

(** A call of a caller-supplied callback with an item. *)
Definition invoke (cb : Callback) (r : ref) (i : nat) (w : World) : World :=
  set_calls (calls w ++ [(cb, (r, i))]) w.

(** [Menubox2.onMenuItemClick(event, menubox)] *)
Definition onMenuItemClick (fuel : nat) (event : MouseEvent) (r : ref) (w : World)
    : option World :=
  match heap w !! r with
  | None => None
  | Some m =>
      match get_opt (clicked_key m (target event)) (items m) with
      | None => Some w
      | Some i =>
          match item_at m i with
          | None => Some w
          | Some menuItem =>
              if Item.enabled menuItem then
                let w1 :=
                  if isMultiselect m then
                    match Item.set_checked (JBool (negb (Item.checked menuItem))) menuItem with
                    | Returns it' => store_item r i it' w
                    | ThrowsTypeError _ _ => w
                    end
                  else w in
                let w2 :=
                  if existsb (SelectMode_eqb (selectMode m)) [normal; multiselect_interactive]
                     && negb (has_submenu menuItem)
                  then match callback m with
                       | Some cb => invoke cb r i w1
                       | None => w1
                       end
                  else w1 in
                match submenu menuItem with
                | Some s =>
                    popup fuel (Some event) (context m) (Some (itemRect (host w2) r i)) s w2
                | None =>
                    if SelectMode_eqb (selectMode m) normal
                    then close fuel false r w2
                    else Some w2
                end
              else Some w
          end
      end
  end.

(** ** Construction *)

(** A key that counts as present: a non-empty string. *)
Definition truthy_key (k : option string) : bool :=
  match k with
  | Some s => negb (String.eqb s "")
  | None => false
  end.

(** [Menubox2ItemRenderer.create(itemProps)] *)
Definition Menubox2ItemRenderer_create (itemProps : Menubox2ItemProperties) : HTMLElement :=
  let result :=
    set_classList
      (ClassList.add (if truthy_key (prop_key itemProps) then "menubox-item" else "menubox-label")
         (classList createElement)) createElement in
  let result :=
    if Nat.ltb 0 (length (prop_cssClasses itemProps))
    then set_classList (ClassList.add_all (prop_cssClasses itemProps) (classList result)) result
    else result in
  set_textContent
    (match prop_label itemProps with
     | Some l => Some l
     | None => prop_key itemProps
     end) result.

(** [__newElement(tagName, cssClass)] *)
Definition __newElement (cssClass : string) : HTMLElement :=
  set_classList (ClassList.add cssClass (classList createElement)) createElement.

Definition add_class (token : string) (e : HTMLElement) : HTMLElement :=
  set_classList (ClassList.add token (classList e)) e.

(** The [Menubox2Item] constructor.  [new_Menubox2] is the menubox
    constructor, which this one calls for an item that has a submenu. *)
Definition new_Menubox2Item
    (new_Menubox2 : string -> Menubox2Definition -> option SubmenuOverride ->
                    option ref -> World -> option (ref * World))
    (properties : Menubox2ItemProperties) (parent : ref) (w : World)
    : option (Menubox2Item * World) :=
  match heap w !! parent with
  | None => None
  | Some pm =>
      let this :=
        {| key := prop_key properties; menubox := parent;
           element := Menubox2ItemRenderer_create properties;
           submenu := None; onclick := None |} in
      let built :=
        if truthy_key (prop_key properties) then
          let this1 :=
            set_element
              (set_dataset (JSMap.set "key" (default "" (prop_key properties))
                              (dataset (element this))) (element this)) this in
          match prop_submenu properties with
          | Some submenuDefinition =>
              let submenuId :=
                (boxId pm +:+ "." +:+ default "" (prop_key properties))%string in
              match new_Menubox2 submenuId submenuDefinition
                      (Some {| forced_adjustment :=
                                 [("horizontal", "after"); ("vertical", "submenu-top")];
                               forced_css := ["submenubox"];
                               forced_callback := callback pm |})
                      (Some parent) w with
              | Some (s, w') =>
                  Some ({| key := key this1; menubox := menubox this1;
                           element := add_class "submenuitem" (element this1);
                           submenu := Some s; onclick := None |}, w')
              | None => None
              end
          | None =>
              Some ({| key := key this1; menubox := menubox this1;
                       element := element this1; submenu := None;
                       onclick := prop_callback properties |}, w)
          end
        else Some (this, w) in
      match built with
      | None => None
      | Some (this2, w') =>
          match heap w' !! parent with
          | None => None
          | Some pm' =>
              let e := element this2 in
              let e := if isMultiselect pm' then add_class "multiselect" e else e in
              let e := match prop_checked properties with
                       | Some true => add_class "checked" e
                       | _ => e
                       end in
              let e := match prop_enabled properties with
                       | Some false => add_class "disabled" e
                       | _ => e
                       end in
              Some (set_element e this2, w')
          end
      end
  end.

(** The options the constructor reads: the definition, overlaid with the
    forced properties when it is a submenu definition. *)
Definition effective_adjustment (options : Menubox2Definition)
    (forced : option SubmenuOverride) : list (string * string) :=
  match forced with
  | Some f => forced_adjustment f
  | None => opt_adjustment options
  end.

Definition effective_css (options : Menubox2Definition)
    (forced : option SubmenuOverride) : option (list string) :=
  match forced with
  | Some f => Some (forced_css f)
  | None => opt_css options
  end.

Definition effective_callback (options : Menubox2Definition)
    (forced : option SubmenuOverride) : option Callback :=
  match forced with
  | Some f => forced_callback f
  | None => opt_callback options
  end.

(** [Math.max(options.submenuDelay || 300, 0)] *)
Definition submenuDelay_of (supplied : option Z) : Z :=
  Z.max (match supplied with
         | Some d => if Z.eqb d 0 then 300 else d
         | None => 300
         end) 0.

(** The [console.info] line written when an id is constructed again. *)
Definition replaced_notice (id : string) : string :=
  let quote := String (Ascii.ascii_of_nat 34) EmptyString in
  ("Menubox " +:+ quote +:+ id +:+ quote +:+ " already existed, has been replaced.")%string.

(** [document.body.querySelector(...)?.remove()] for the selector
    [data-menubox = id]: the first attached menubox element with that id. *)
Fixpoint remove_first_with_id (id : string) (hp : list Menubox2) (b : list ref) : list ref :=
  match b with
  | [] => []
  | r :: b' =>
      match hp !! r with
      | Some m => if String.eqb (boxId m) id then b' else r :: remove_first_with_id id hp b'
      | None => r :: remove_first_with_id id hp b'
      end
  end.

(** The object as the constructor has it when it starts creating items. *)
Definition blank_menubox (id : string) (options : Menubox2Definition)
    (forced : option SubmenuOverride) (_parentMenubox : option ref) : Menubox2 :=
  let mode := default normal (opt_selectMode options) in
  let e := __newElement "menubox" in
  let e := set_dataset (JSMap.set "menubox" id (dataset e)) e in
  let e := if existsb (SelectMode_eqb mode) [multiselect; multiselect_interactive]
           then add_class "menubox-multiselect" e else e in
  let e := style_set "position" (Tok (default "absolute" (opt_position options))) e in
  let e := style_set "top" (Px 0) e in
  let e := style_set "left" (Px 0) e in
  let e := match effective_css options forced with
           | Some tokens => set_classList (ClassList.add_all tokens (classList e)) e
           | None => e
           end in
  {| boxId := id;
     parentMenubox := _parentMenubox;
     selectMode := mode;
     callback := effective_callback options forced;
     adjustment :=
       JSMap.assign [("horizontal", "left"); ("vertical", "below")]
         (effective_adjustment options forced);
     transistions :=
       JSMap.assign [("visibility", (Tok "hidden", Tok "visible"))]
         (opt_transistions options);
     submenuDelay := submenuDelay_of (opt_submenuDelay options);
     context := JUndefined;
     boxElement := e;
     wrapperElement := __newElement "menubox-wrapper";
     itemsElement := __newElement "menubox-items";
     nodes := [];
     items := [] |}.

(** Append a child to [div.menubox-items] of menubox [r]. *)
Definition appendChild (r : ref) (n : Node) (w : World) : World :=
  match heap w !! r with
  | Some m => store r (set_nodes (nodes m ++ [n]) m) w
  | None => w
  end.

(** [self.items.set(key, menuItem)], the item being the node at [i]. *)
Definition items_set (r : ref) (k : string) (i : nat) (w : World) : World :=
  match heap w !! r with
  | Some m => store r (set_items (JSMap.set k i (items m)) m) w
  | None => w
  end.

(** [__setItems(self, itemDefs)], given the menubox constructor
    [new_Menubox2] that the item constructor calls for submenus. *)
Definition __setItems
    (new_Menubox2 : string -> Menubox2Definition -> option SubmenuOverride ->
                    option ref -> World -> option (ref * World))
    (self : ref) : list Menubox2ItemProperties -> World -> option World :=
  fix loop (itemDefs : list Menubox2ItemProperties) (w : World) {struct itemDefs}
      : option World :=
    match itemDefs with
    | [] => Some w
    | itemDef :: rest =>
        if separator itemDef
        then loop rest (appendChild self (HrNode (__newElement "menubox-separator")) w)
        else
          match new_Menubox2Item new_Menubox2 itemDef self w with
          | None => None
          | Some (menuItem, w') =>
              let i := match heap w' !! self with
                       | Some m => length (nodes m)
                       | None => O
                       end in
              let w'' := appendChild self (ItemNode menuItem) w' in
              loop rest
                (if truthy_key (prop_key itemDef)
                 then items_set self (default "" (prop_key itemDef)) i w''
                 else w'')
          end
    end.

(** The world in which the constructor starts creating items: the notice
    and the removal of the old element when the id is taken, then the new
    object, its element appended to the body. *)
Definition allocate (id : string) (options : Menubox2Definition)
    (forced : option SubmenuOverride) (_parentMenubox : option ref) (w : World) : World :=
  let w0 :=
    if JSMap.has id (instances w)
    then set_body (remove_first_with_id id (heap w) (body w))
           (set_infos (infos w ++ [replaced_notice id]) w)
    else w in
  set_body (body w0 ++ [length (heap w0)])
    (set_heap (heap w0 ++ [blank_menubox id options forced _parentMenubox]) w0).

(** [new Menubox2(id, options, _parentMenubox)]: the reference of the new
    object and the world after the constructor has returned. *)
Fixpoint new_Menubox2 (id : string) (options : Menubox2Definition)
    (forced : option SubmenuOverride) (_parentMenubox : option ref) (w : World)
    {struct options} : option (ref * World) :=
  let this := length (heap w) in
  match __setItems new_Menubox2 this (opt_items options)
          (allocate id options forced _parentMenubox w) with
  | None => None
  | Some w2 =>
      let w3 := set_instances (JSMap.set id this (instances w2)) w2 in
      match closeAll (S (length (heap w3))) w3 with
      | Some w4 => Some (this, w4)
      | None => None
      end
  end.

(** ** Event handlers *)

(** The [onclick] the item constructor installs on the element of a keyed
    item without submenu whose properties carry a callback.  It stops the
    propagation of the event, so the menubox's own handler does not run. *)
Definition item_onclick (fuel : nat) (cb : Callback) (r : ref) (i : nat) (w : World)
    : option World :=
  match heap w !! r with
  | None => None
  | Some m =>
      match item_at m i with
      | None => None
      | Some this =>
          if Item.enabled this
          then close fuel false (menubox this) (invoke cb r i w)
          else Some w
      end
  end.

(** A click inside menubox [r]: the handler on the target runs first, then
    the event bubbles to the menubox element unless it was stopped. *)
Definition click (fuel : nat) (event : MouseEvent) (r : ref) (w : World) : option World :=
  match heap w !! r with
  | None => None
  | Some m =>
      match (match target event with
             | OnNode i =>
                 match item_at m i with
                 | Some it => option_map (fun cb => (cb, i)) (onclick it)
                 | None => None
                 end
             | _ => None
             end) with
      | Some (cb, i) => item_onclick fuel cb r i w
      | None => onMenuItemClick fuel event r w
      end
  end.

(** The [onmouseenter] of the element of item [i] of menubox [r]. *)
Definition item_onmouseenter (fuel : nat) (evt : MouseEvent) (r : ref) (i : nat) (w : World)
    : option World :=
  match heap w !! r with
  | None => None
  | Some m =>
      match item_at m i with
      | None => None
      | Some this =>
          match closeSubmenus fuel (menubox this) w with
          | None => None
          | Some w1 =>
              if has_submenu this
              then
                let armed :=
                  setTimeout {| task_box := r; task_item := i; task_event := evt;
                                task_delay := submenuDelay m |} w1 in
                Some (set_currentSubmenuTimerId (fst armed) (snd armed))
              else Some w1
          end
      end
  end.

(** The [onmouseleave] of a menubox element. *)
Definition menubox_onmouseleave (w : World) : World :=
  clearCurrentSubmenuTimer w.

(** The host runs the pending timer [tid]: the timer leaves the pending
    list and its task,
    [this.submenu.popup(evt, this.menubox.context, this.element)], runs. *)
Definition timer_fires (fuel : nat) (tid : nat) (w : World) : option World :=
  match List.find (fun t => Nat.eqb (fst t) tid) (timers w) with
  | None => None
  | Some (_, task) =>
      let w1 := clearTimeout tid w in
      match heap w1 !! task_box task with
      | None => None
      | Some m =>
          match item_at m (task_item task) with
          | None => None
          | Some this =>
              match submenu this, heap w1 !! menubox this with
              | Some s, Some owner =>
                  popup fuel (Some (task_event task)) (context owner)
                    (Some (itemRect (host w1) (task_box task) (task_item task))) s w1
              | _, _ => None
              end
          end
      end
  end.

(** Everything that can happen to the document: calls of the public
    interface, input events, a timer coming due, and layout changes. *)
Inductive Event : Type :=
| Construct (id : string) (options : Menubox2Definition)
| Popup (r : ref) (mouseEvent : option MouseEvent) (ctx : JSValue) (anchor : option DOMRect)
| Close (r : ref) (closeSubmenus_true : bool)
| Toggle (r : ref) (mouseEvent : MouseEvent) (ctx : JSValue) (anchor : option DOMRect)
| CloseSubmenus (r : ref)
| CloseAll
| Click (r : ref) (event : MouseEvent)
| ClickOutside
| KeydownEscape
| MouseEnterItem (r : ref) (i : nat) (evt : MouseEvent)
| MouseLeave (r : ref)
| SetChecked (r : ref) (i : nat) (val : JSValue)
| SetEnabled (r : ref) (i : nat) (val : JSValue)
| TimerFires (tid : nat)
| Relayout (h : Host).

(** The depth of calls granted to an operation started in world [w]: a
    chain of submenus is walked twice per level by [closeSubmenus]. *)
Definition enough (w : World) : nat := S (2 * length (heap w)).

(** One event.  [None]: the handler did not complete (an uncaught exception
    or an exhausted call depth) or the event cannot occur in this world. *)
Definition step (w : World) (ev : Event) : option World :=
  match ev with
  | Construct id options => option_map snd (new_Menubox2 id options None None w)
  | Popup r me ctx anchor => popup (enough w) me ctx anchor r w
  | Close r flag => close (enough w) flag r w
  | Toggle r me ctx anchor => option_map snd (toggle (enough w) me ctx anchor r w)
  | CloseSubmenus r => closeSubmenus (enough w) r w
  | CloseAll | ClickOutside | KeydownEscape => closeAll (enough w) w
  | Click r event => click (enough w) event r w
  | MouseEnterItem r i evt => item_onmouseenter (enough w) evt r i w
  | MouseLeave r =>
      match heap w !! r with
      | Some _ => Some (menubox_onmouseleave w)
      | None => None
      end
  | SetChecked r i val =>
      match heap w !! r with
      | Some m =>
          match item_at m i with
          | Some it =>
              match Item.set_checked val it with
              | Returns it' => Some (store_item r i it' w)
              | ThrowsTypeError _ _ => None
              end
          | None => None
          end
      | None => None
      end
  | SetEnabled r i val =>
      match heap w !! r with
      | Some m =>
          match item_at m i with
          | Some it =>
              match Item.set_enabled val it with
              | Returns it' => Some (store_item r i it' w)
              | ThrowsTypeError _ _ => None
              end
          | None => None
          end
      | None => None
      end
  | TimerFires tid => timer_fires (enough w) tid w
  | Relayout h => Some (set_host h w)
  end.

(** A run of events, stopping at the first that does not complete. *)
Definition run (evs : list Event) (w : World) : option World :=
  for_each step evs w.


(** ** Well-formed worlds, ancestors and descendants *)

(** The transition table of [m] switches the style property [visibility]
    between a closed value other than ["visible"] and the open value
    ["visible"], as the default table does.  The entry is looked up from the
    end of the table: it is the one [_setVisibility] writes last. *)
Definition toggles_visibility (m : Menubox2) : bool :=
  match JSMap.get "visibility" (rev (transistions m)) with
  | Some (closed, open) =>
      negb (StyleValue_eqb closed (Tok "visible")) && StyleValue_eqb open (Tok "visible")
  | None => false
  end.

(** Every menubox of the world does. *)
Definition toggling (w : World) : bool := forallb toggles_visibility (heap w).

(** The menubox at [r] is shown, in the sense of [toggle]. *)
Definition visible (w : World) (r : ref) : bool :=
  match heap w !! r with
  | Some m => is_visible m
  | None => false
  end.

Definition registered (w : World) (r : ref) : Prop := In r (JSMap.values (instances w)).

Definition is_root (w : World) (r : ref) : Prop :=
  exists m, heap w !! r = Some m /\ parentMenubox m = None.

(** [ancestor w r a]: [a] is [r] or lies above [r] on its chain of parents. *)
Inductive ancestor (w : World) : ref -> ref -> Prop :=
| ancestor_self r : ancestor w r r
| ancestor_parent r m p a :
    heap w !! r = Some m -> parentMenubox m = Some p -> ancestor w p a -> ancestor w r a.

(** [descendant w r d]: [d] is [r] or a submenu reached from [r] through
    items of the item collections. *)
Inductive descendant (w : World) : ref -> ref -> Prop :=
| descendant_self r : descendant w r r
| descendant_submenu r m i menuItem s d :
    heap w !! r = Some m -> In i (JSMap.values (items m)) ->
    item_at m i = Some menuItem -> submenu menuItem = Some s ->
    descendant w s d -> descendant w r d.

(** A submenu is allocated after the menubox that owns its item and points
    back to it. *)
Definition wf_node (hp : list Menubox2) (r : ref) (n : Node) : bool :=
  match n with
  | HrNode _ => true
  | ItemNode it =>
      match submenu it with
      | None => true
      | Some s =>
          Nat.ltb r s &&
          match hp !! s with
          | Some ms => match parentMenubox ms with
                       | Some p => Nat.eqb p r
                       | None => false
                       end
          | None => false
          end
      end
  end.

(** An entry of the item collection refers to an item whose element is
    marked as a menubox item and carries the entry's key. *)
Definition wf_entry (m : Menubox2) (entry : string * nat) : bool :=
  match item_at m (snd entry) with
  | Some it =>
      ClassList.contains "menubox-item" (classList (element it)) &&
      match JSMap.get "key" (dataset (element it)) with
      | Some k => String.eqb k (fst entry)
      | None => false
      end
  | None => false
  end.

Definition wf_menubox (hp : list Menubox2) (r : ref) (m : Menubox2) : bool :=
  match parentMenubox m with
  | Some p => Nat.ltb p r
  | None => true
  end
  && forallb (wf_node hp r) (nodes m)
  && forallb (wf_entry m) (items m).

Fixpoint wf_heap (hp : list Menubox2) (r : ref) (l : list Menubox2) : bool :=
  match l with
  | [] => true
  | m :: l' => wf_menubox hp r m && wf_heap hp (S r) l'
  end.

(** The shape every world built by the constructor has. *)
Definition well_formed (w : World) : bool :=
  wf_heap (heap w) 0%nat (heap w)
  && forallb (fun r => Nat.ltb r (length (heap w))) (JSMap.values (instances w)).

(** An element without its inline style and scroll position. *)
Definition forget_style (e : HTMLElement) : HTMLElement :=
  set_scrollTop 0 (set_style [] e).

(** What [popup], [close] and [closeSubmenus] leave alone in a menubox:
    everything but its context and the inline style and scroll position of
    its element and of its item list element. *)
Definition frame (m : Menubox2) : Menubox2 :=
  set_context JUndefined
    (set_itemsElement (forget_style (itemsElement m))
       (set_boxElement (forget_style (boxElement m)) m)).

(** [restyles w w']: the two worlds differ at most in the styles and
    contexts of their menuboxes and in the pending timers. *)
Record restyles (w w' : World) : Prop := mkRestyles {
  rs_frame : frame <$> heap w' = frame <$> heap w;
  rs_instances : instances w' = instances w;
  rs_body : body w' = body w;
  rs_current : currentSubmenuTimerId w' = currentSubmenuTimerId w;
  rs_next : nextTimerId w' = nextTimerId w;
  rs_calls : calls w' = calls w;
  rs_infos : infos w' = infos w;
  rs_host : host w' = host w
}.

(** The menubox at [a] exists and, if its table toggles visibility, is hidden. *)
Definition closed_at (w : World) (a : ref) : Prop :=
  exists m, heap w !! a = Some m /\ (toggles_visibility m = true -> is_visible m = false).

(** At most one registered root menubox is visible. *)
Definition one_root_visible (w : World) : Prop :=
  forall r1 r2,
    registered w r1 -> is_root w r1 -> visible w r1 = true ->
    registered w r2 -> is_root w r2 -> visible w r2 = true -> r1 = r2.

(** A call of [popup] on a registered menubox that has no parent. *)
Definition root_popup (w : World) (ev : Event) : Prop :=
  match ev with
  | Popup r _ _ _ => registered w r /\ is_root w r
  | _ => False
  end.

(** ** A sample document *)

Module Sample.
Definition layout : Metrics :=
  {| offsetWidth := 120; offsetHeight := 700; wrapper_offsetWidth := 118;
     wrapper_offsetHeight := 698; items_offsetHeight := 690;
     paddingTop := 2; borderTopWidth := 1 |}.

Definition document : Host :=
  {| visualViewport_width := 800; visualViewport_height := 600;
     document_scrollTop := 40; document_scrollLeft := 10;
     metrics := fun _ => layout;
     itemRect := fun _ i => {| rect_left := 20; rect_top := 30 + 20 * Z.of_nat i;
                                rect_width := 100; rect_height := 20 |} |}.

Definition item (k : string) : Menubox2ItemProperties :=
  {| separator := false; prop_key := Some k; prop_label := None;
     prop_callback := None; prop_checked := None; prop_enabled := None;
     prop_cssClasses := []; prop_submenu := None |}.

Definition menu (mode : option SelectMode) (its : list Menubox2ItemProperties)
    : Menubox2Definition :=
  {| opt_css := None; opt_position := None; opt_adjustment := [];
     opt_transistions := []; opt_selectMode := mode; opt_callback := Some 7%nat;
     opt_items := its; opt_submenuDelay := None |}.

(** Menubox [m1]: item [a], the disabled item [b], item [x] with a
    submenu holding [y], a separator, and a checked label without key. *)
Definition m1 : Menubox2Definition :=
  menu None
    [ item "a";
      {| separator := false; prop_key := Some "b"; prop_label := Some "B";
         prop_callback := None; prop_checked := None; prop_enabled := Some false;
         prop_cssClasses := []; prop_submenu := None |};
      {| separator := false; prop_key := Some "x"; prop_label := None;
         prop_callback := None; prop_checked := None; prop_enabled := None;
         prop_cssClasses := []; prop_submenu := Some (menu None [item "y"]) |};
      {| separator := true; prop_key := None; prop_label := None;
         prop_callback := None; prop_checked := None; prop_enabled := None;
         prop_cssClasses := []; prop_submenu := None |};
      {| separator := false; prop_key := None; prop_label := Some "title";
         prop_callback := None; prop_checked := Some true; prop_enabled := None;
         prop_cssClasses := []; prop_submenu := None |} ].

Definition m2 : Menubox2Definition := menu None [item "c"].

Definition m3 : Menubox2Definition :=
  menu (Some multiselect)
    [ item "p";
      {| separator := false; prop_key := Some "q"; prop_label := None;
         prop_callback := None; prop_checked := Some true; prop_enabled := None;
         prop_cssClasses := []; prop_submenu := None |} ].

Definition setup : list Event :=
  [Construct "m1" m1; Construct "m2" m2; Construct "m3" m3].

(** The document after the three menuboxes have been constructed: the
    store holds [m1], [m1.x], [m2] and [m3] at 0, 1, 2 and 3. *)
Definition world : World :=
  default (initial_world document) (run setup (initial_world document)).

Definition pointer (t : EventTarget) : MouseEvent :=
  {| clientX := 15; clientY := 25; target := t |}.
End Sample.
(** The pending timers once [Menubox2.currentSubmenuTimerId] is cleared. *)
Definition cleared (w : World) : list (nat * TimerTask) :=
  timers (clearCurrentSubmenuTimer w).

(** ** What the constructor builds *)

(** The element the item constructor leaves on an item, in a menubox that
    is multiselect or not. *)
Definition item_element (multi : bool) (properties : Menubox2ItemProperties) : HTMLElement :=
  let e := Menubox2ItemRenderer_create properties in
  let e :=
    if truthy_key (prop_key properties)
    then
      let e1 := set_dataset (JSMap.set "key" (default "" (prop_key properties)) (dataset e)) e in
      match prop_submenu properties with
      | Some _ => add_class "submenuitem" e1
      | None => e1
      end
    else e in
  let e := if multi then add_class "multiselect" e else e in
  let e := match prop_checked properties with
           | Some true => add_class "checked" e
           | _ => e
           end in
  match prop_enabled properties with
  | Some false => add_class "disabled" e
  | _ => e
  end.

(** The node the constructor appends for one entry of [items]. *)
Definition renders (r : ref) (multi : bool) (d : Menubox2ItemProperties) (n : Node) : Prop :=
  if separator d
  then n = HrNode (__newElement "menubox-separator")
  else exists it,
         n = ItemNode it /\ key it = prop_key d /\ menubox it = r
         /\ element it = item_element multi d
         /\ (submenu it <> None <->
             truthy_key (prop_key d) = true /\ prop_submenu d <> None).

(** The entries of [items] that enter the item collection: those that are
    no separator and carry a truthy key. *)
Definition enters_collection (d : Menubox2ItemProperties) : bool :=
  negb (separator d) && truthy_key (prop_key d).

(** The item collection after the entries [itemDefs], rendered from
    position [i] on, have been added to [acc] in order. *)
Fixpoint collect (itemDefs : list Menubox2ItemProperties) (i : nat)
    (acc : list (string * nat)) : list (string * nat) :=
  match itemDefs with
  | [] => acc
  | d :: rest =>
      collect rest (S i)
        (if enters_collection d then JSMap.set (default "" (prop_key d)) i acc else acc)
  end.

(** A menubox without its children. *)
Definition shell (m : Menubox2) : Menubox2 := set_items [] (set_nodes [] (frame m)).

(** [extends w w']: every menubox of [w] is in [w'], restyled at most; the
    timers, the calls made and the host are the same. *)
Record extends (w w' : World) : Prop := mkExtends {
  ext_frame : forall b m, heap w !! b = Some m ->
                exists m', heap w' !! b = Some m' /\ frame m' = frame m;
  ext_timers : timers w' = timers w;
  ext_current : currentSubmenuTimerId w' = currentSubmenuTimerId w;
  ext_next : nextTimerId w' = nextTimerId w;
  ext_calls : calls w' = calls w;
  ext_host : host w' = host w
}.

(** The same, except that menubox [self] may have gained children. *)
Record extends_off (self : ref) (w w' : World) : Prop := mkExtendsOff {
  exo_frame : forall b m, b <> self -> heap w !! b = Some m ->
                exists m', heap w' !! b = Some m' /\ frame m' = frame m;
  exo_self : forall m, heap w !! self = Some m ->
                exists m', heap w' !! self = Some m' /\ shell m' = shell m;
  exo_timers : timers w' = timers w;
  exo_current : currentSubmenuTimerId w' = currentSubmenuTimerId w;
  exo_next : nextTimerId w' = nextTimerId w;
  exo_calls : calls w' = calls w;
  exo_host : host w' = host w
}.

(** What holds of every run of the constructor on [options] that returns. *)
Definition constructed (options : Menubox2Definition) : Prop :=
  forall id forced parent w r w',
    new_Menubox2 id options forced parent w = Some (r, w') ->
    r = length (heap w) /\ extends w w'
    /\ exists m, heap w' !! r = Some m
         /\ shell m = shell (blank_menubox id options forced parent)
         /\ Forall2 (renders r (isMultiselect m)) (opt_items options) (nodes m)
         /\ items m = collect (opt_items options) 0 [].

(** The entries of [items] that enter the collection, as (key, position)
    pairs in the order of the definition, positions counted from [i]. *)
Fixpoint entering (itemDefs : list Menubox2ItemProperties) (i : nat) : list (string * nat) :=
  match itemDefs with
  | [] => []
  | d :: rest =>
      (if enters_collection d then [(default "" (prop_key d), i)] else [])
      ++ entering rest (S i)
  end.

(** ** The hover timer *)

(** At most one timer is pending, and it is the one
    [Menubox2.currentSubmenuTimerId] names. *)
Definition one_timer (w : World) : Prop :=
  (0 < nextTimerId w)%nat
  /\ (timers w = []
      \/ exists tid task,
           timers w = [(tid, task)] /\ currentSubmenuTimerId w = Some tid /\ (0 < tid)%nat).

(** The events that arm a timer: the pointer entering an item. *)
Definition is_hover (ev : Event) : Prop :=
  match ev with
  | MouseEnterItem _ _ _ => True
  | _ => False
  end.

(** [quiet w w']: no timer was armed or came due between the two worlds; the
    pending timers are as they were, or cleared of the current handle. *)
Definition quiet (w w' : World) : Prop :=
  (timers w' = timers w \/ timers w' = cleared w)
  /\ currentSubmenuTimerId w' = currentSubmenuTimerId w
  /\ nextTimerId w' = nextTimerId w.

(** ** The root of a menubox *)

(** [get rootMenubox ()]: [this.parentMenubox?.rootMenubox || this], with
    the depth of calls it may make. *)
Fixpoint rootMenubox (fuel : nat) (r : ref) (w : World) : option ref :=
  match fuel with
  | O => None
  | S fuel' =>
      match heap w !! r with
      | None => None
      | Some m =>
          match parentMenubox m with
          | Some p => rootMenubox fuel' p w
          | None => Some r
          end
      end
  end.

(** The label an item shows: [itemProps.label ?? itemProps.key ?? null]. *)
Definition label_of (d : Menubox2ItemProperties) : option string :=
  match prop_label d with
  | Some l => Some l
  | None => prop_key d
  end.

(** ** A second sample document *)

Module Sample2.
(** Menubox [m4] of select mode [persistent]: item [s], and item [t] that
    carries a callback of its own. *)
Definition m4 : Menubox2Definition :=
  Sample.menu (Some persistent)
    [ Sample.item "s";
      {| separator := false; prop_key := Some "t"; prop_label := Some "T";
         prop_callback := Some 9%nat; prop_checked := None; prop_enabled := None;
         prop_cssClasses := ["wide"]; prop_submenu := None |} ].

(** Menubox [m5] of select mode [multiselect_interactive] with item [u]. *)
Definition m5 : Menubox2Definition :=
  Sample.menu (Some multiselect_interactive) [Sample.item "u"].

(** The first sample document with [m4] and [m5] constructed after it, at 4
    and 5 of the store. *)
Definition world : World :=
  default (initial_world Sample.document)
    (run (Sample.setup ++ [Construct "m4" m4; Construct "m5" m5])
       (initial_world Sample.document)).
End Sample2.

(** * Properties *)

(** ** Maps, class lists and styles *)

Section JSMap_facts.
Context {V : Type}.
Implicit Types (m : list (string * V)) (k : string) (v : V).

Lemma get_set_eq k v m : JSMap.get k (JSMap.set k v m) = Some v.
Proof.
  induction m as [|[k' v'] m IH]; simpl.
  - by rewrite String.eqb_refl.
  - destruct (String.eqb k' k) eqn:E; simpl.
    + by rewrite String.eqb_refl.
    + by rewrite E.
Qed.

Lemma get_set_ne k k' v m : k <> k' -> JSMap.get k' (JSMap.set k v m) = JSMap.get k' m.
Proof.
  intros Hne. induction m as [|[k0 v0] m IH]; simpl.
  - destruct (String.eqb k k') eqn:E; [apply String.eqb_eq in E; done | done].
  - destruct (String.eqb k0 k) eqn:E; simpl.
    + apply String.eqb_eq in E. subst k0.
      destruct (String.eqb k k') eqn:E'; [apply String.eqb_eq in E'; done | done].
    + by rewrite IH.
Qed.

Lemma get_Some_elem k v m : JSMap.get k m = Some v -> (k, v) ∈ m.
Proof.
  induction m as [|[k' v'] m IH]; simpl; [done|].
  destruct (String.eqb k' k) eqn:E.
  - apply String.eqb_eq in E. intros [= ->]. subst. left.
  - intros H. right. by apply IH.
Qed.

Lemma get_rev_snoc k m (e : string * V) :
  JSMap.get k (rev (m ++ [e])) =
  if String.eqb (fst e) k then Some (snd e) else JSMap.get k (rev m).
Proof. rewrite rev_app_distr. destruct e. done. Qed.

Lemma keys_set k v m : JSMap.has k m = true -> JSMap.keys (JSMap.set k v m) = JSMap.keys m.
Proof.
  unfold JSMap.has, JSMap.keys.
  induction m as [|[k' v'] m IH]; simpl; [done|].
  destruct (String.eqb k' k) eqn:E; simpl.
  - apply String.eqb_eq in E. by subst.
  - intros H. by rewrite IH.
Qed.

Lemma set_fresh k v m : JSMap.get k m = None -> JSMap.set k v m = m ++ [(k, v)].
Proof.
  induction m as [|[k' v'] m IH]; simpl; [done|].
  destruct (String.eqb k' k); [done|]. intros H. by rewrite IH.
Qed.
End JSMap_facts.

Lemma contains_add_eq token l : ClassList.contains token (ClassList.add token l) = true.
Proof.
  unfold ClassList.add. destruct (ClassList.contains token l) eqn:E; [done|].
  unfold ClassList.contains. rewrite existsb_app. simpl.
  rewrite String.eqb_refl. by rewrite orb_true_r.
Qed.

Lemma contains_add_ne token token' l :
  token <> token' ->
  ClassList.contains token' (ClassList.add token l) = ClassList.contains token' l.
Proof.
  intros Hne. unfold ClassList.add. destruct (ClassList.contains token l); [done|].
  unfold ClassList.contains. rewrite existsb_app. simpl.
  destruct (String.eqb token' token) eqn:E.
  - apply String.eqb_eq in E. by subst.
  - by rewrite !orb_false_r.
Qed.

Lemma contains_add_mono token token' l :
  ClassList.contains token' l = true ->
  ClassList.contains token' (ClassList.add token l) = true.
Proof.
  intros H. unfold ClassList.add. destruct (ClassList.contains token l); [done|].
  unfold ClassList.contains in *. rewrite existsb_app. by rewrite H.
Qed.

Lemma contains_remove_eq token l : ClassList.contains token (ClassList.remove token l) = false.
Proof.
  unfold ClassList.contains, ClassList.remove.
  induction l as [|t l IH]; simpl; [done|].
  destruct (String.eqb token t) eqn:E; simpl; [done|]. by rewrite E.
Qed.

Lemma contains_remove_ne token token' l :
  token <> token' ->
  ClassList.contains token' (ClassList.remove token l) = ClassList.contains token' l.
Proof.
  intros Hne. unfold ClassList.contains, ClassList.remove.
  induction l as [|t l IH]; simpl; [done|].
  destruct (String.eqb token t) eqn:E; simpl.
  - apply String.eqb_eq in E. subst t.
    destruct (String.eqb token' token) eqn:E'; [|done].
    apply String.eqb_eq in E'. by subst.
  - by rewrite IH.
Qed.

Lemma contains_toggle_eq token force l :
  ClassList.contains token (ClassList.toggle token force l) = force.
Proof.
  destruct force; simpl; [apply contains_add_eq | apply contains_remove_eq].
Qed.

Lemma contains_toggle_ne token token' force l :
  token <> token' ->
  ClassList.contains token' (ClassList.toggle token force l) = ClassList.contains token' l.
Proof.
  intros. destruct force; simpl; [by apply contains_add_ne | by apply contains_remove_ne].
Qed.

(** ** Setters of [checked] and [enabled] *)

(** C9.  Assigning a value that is not a boolean to [checked] or [enabled]
    throws a [TypeError] and leaves the item as it was; assigning a boolean
    [b] completes, and the getter of that property then returns [b]. *)
Theorem setters_accept_only_booleans (it : Menubox2Item) :
  (forall v, typeof_boolean v = false ->
     Item.set_checked v it = ThrowsTypeError it "Boolean value expected."
     /\ Item.set_enabled v it = ThrowsTypeError it "Boolean value expected.")
  /\ (forall b, exists it',
        Item.set_checked (JBool b) it = Returns it' /\ Item.checked it' = b)
  /\ (forall b, exists it',
        Item.set_enabled (JBool b) it = Returns it' /\ Item.enabled it' = b).
Proof.
  split; [|split].
  - intros v Hv. destruct v; simpl in Hv; try discriminate; done.
  - intros b. eexists. split; [reflexivity|].
    unfold Item.checked. simpl. rewrite contains_toggle_eq. by destruct b.
  - intros b. eexists. split; [reflexivity|].
    unfold Item.enabled. simpl. rewrite contains_toggle_eq. by destruct b.
Qed.

(** ** Well-formed worlds *)

Lemma forallb_pointwise {A : Type} (f g : A -> bool) (l : list A) :
  (forall a, f a = g a) -> forallb f l = forallb g l.
Proof. intros H. induction l as [|a l IH]; simpl; [done|]. by rewrite H, IH. Qed.

Lemma wf_heap_lookup hp base l r m :
  wf_heap hp base l = true -> l !! r = Some m -> wf_menubox hp (base + r)%nat m = true.
Proof.
  revert base r. induction l as [|m0 l IH]; intros base r Hwf Hl; [done|].
  simpl in Hwf. apply andb_true_iff in Hwf as [H0 Hrest].
  destruct r as [|r]; simpl in Hl.
  - injection Hl as ->. by rewrite Nat.add_0_r.
  - replace (base + S r)%nat with (S base + r)%nat by lia. by apply IH.
Qed.

Lemma wf_heap_frame hp base l :
  wf_heap (frame <$> hp) base (frame <$> l) = wf_heap hp base l.
Proof.
  revert base. induction l as [|m l IH]; intros base; [done|].
  simpl. rewrite IH. f_equal.
  unfold wf_menubox. simpl. f_equal. f_equal.
  apply forallb_pointwise. intros [e|it]; simpl; [done|].
  destruct (submenu it) as [s|]; [|done].
  rewrite list_lookup_fmap. by destruct (hp !! s).
Qed.

Lemma well_formed_lookup w r m :
  well_formed w = true -> heap w !! r = Some m -> wf_menubox (heap w) r m = true.
Proof.
  intros Hwf Hl. apply andb_true_iff in Hwf as [Hh _].
  by apply (wf_heap_lookup _ 0%nat _ r m Hh).
Qed.

Lemma wf_parent_lt w r m p :
  well_formed w = true -> heap w !! r = Some m -> parentMenubox m = Some p -> (p < r)%nat.
Proof.
  intros Hwf Hl Hp. pose proof (well_formed_lookup _ _ _ Hwf Hl) as H.
  unfold wf_menubox in H. rewrite Hp in H.
  apply andb_true_iff in H as [H _]. apply andb_true_iff in H as [H _].
  by apply Nat.ltb_lt.
Qed.

Lemma wf_submenu w r m i it s :
  well_formed w = true -> heap w !! r = Some m ->
  item_at m i = Some it -> submenu it = Some s ->
  (r < s)%nat /\ exists ms, heap w !! s = Some ms /\ parentMenubox ms = Some r.
Proof.
  intros Hwf Hl Hit Hs. pose proof (well_formed_lookup _ _ _ Hwf Hl) as H.
  unfold wf_menubox in H.
  apply andb_true_iff in H as [H _]. apply andb_true_iff in H as [_ H].
  rewrite forallb_forall in H.
  unfold item_at in Hit. destruct (nodes m !! i) as [[e|it']|] eqn:En; try discriminate.
  injection Hit as ->.
  specialize (H (ItemNode it)). simpl in H. rewrite Hs in H.
  assert (Hin : In (ItemNode it) (nodes m)).
  { apply list_elem_of_In. apply list_elem_of_lookup. eauto. }
  apply H in Hin. apply andb_true_iff in Hin as [Hlt Hms].
  apply Nat.ltb_lt in Hlt. split; [done|].
  destruct (heap w !! s) as [ms|]; [|done].
  exists ms. split; [done|].
  destruct (parentMenubox ms) as [p|]; [|done].
  apply Nat.eqb_eq in Hms. by subst.
Qed.

Lemma wf_item_entry w r m k i :
  well_formed w = true -> heap w !! r = Some m -> JSMap.get k (items m) = Some i ->
  exists it, item_at m i = Some it
    /\ ClassList.contains "menubox-item" (classList (element it)) = true
    /\ JSMap.get "key" (dataset (element it)) = Some k.
Proof.
  intros Hwf Hl Hk. pose proof (well_formed_lookup _ _ _ Hwf Hl) as H.
  unfold wf_menubox in H. apply andb_true_iff in H as [_ H].
  rewrite forallb_forall in H.
  apply get_Some_elem in Hk. apply list_elem_of_In in Hk.
  specialize (H _ Hk). unfold wf_entry in H. simpl in H.
  destruct (item_at m i) as [it|]; [|done].
  exists it. apply andb_true_iff in H as [Hc Hd]. split; [done|]. split; [done|].
  destruct (JSMap.get "key" (dataset (element it))) as [k'|]; [|done].
  apply String.eqb_eq in Hd. by subst.
Qed.

Lemma wf_registered_lt w r :
  well_formed w = true -> registered w r -> (r < length (heap w))%nat.
Proof.
  intros Hwf Hr. apply andb_true_iff in Hwf as [_ H].
  rewrite forallb_forall in H. apply Nat.ltb_lt. by apply H.
Qed.

(** ** Worlds that differ in styles only *)

Arguments frame : simpl never.

Lemma restyles_refl w : restyles w w.
Proof. by constructor. Qed.

Lemma restyles_trans w1 w2 w3 : restyles w1 w2 -> restyles w2 w3 -> restyles w1 w3.
Proof.
  intros [] []. constructor; congruence.
Qed.

Lemma restyles_sym w w' : restyles w w' -> restyles w' w.
Proof. intros []. by constructor. Qed.

Lemma restyles_length w w' : restyles w w' -> length (heap w') = length (heap w).
Proof.
  intros [H _ _ _ _ _ _ _]. apply (f_equal length) in H. by rewrite !length_fmap in H.
Qed.

Lemma restyles_lookup w w' r m :
  restyles w w' -> heap w !! r = Some m ->
  exists m', heap w' !! r = Some m' /\ frame m' = frame m.
Proof.
  intros [H _ _ _ _ _ _ _] Hl.
  apply (f_equal (fun l => l !! r)) in H. rewrite !list_lookup_fmap, Hl in H.
  destruct (heap w' !! r) as [m'|]; [|done]. exists m'. split; [done|].
  simpl in H. congruence.
Qed.

Lemma frame_parent m m' : frame m' = frame m -> parentMenubox m' = parentMenubox m.
Proof. intros H. by apply (f_equal parentMenubox) in H. Qed.

Lemma frame_nodes m m' : frame m' = frame m -> nodes m' = nodes m.
Proof. intros H. by apply (f_equal nodes) in H. Qed.

Lemma frame_items m m' : frame m' = frame m -> items m' = items m.
Proof. intros H. by apply (f_equal items) in H. Qed.

Lemma frame_transistions m m' : frame m' = frame m -> transistions m' = transistions m.
Proof. intros H. by apply (f_equal transistions) in H. Qed.

Lemma frame_item_at m m' i : frame m' = frame m -> item_at m' i = item_at m i.
Proof. intros H. unfold item_at. by rewrite (frame_nodes _ _ H). Qed.

Lemma frame_toggles m m' : frame m' = frame m -> toggles_visibility m' = toggles_visibility m.
Proof. intros H. unfold toggles_visibility. by rewrite (frame_transistions _ _ H). Qed.

Lemma restyles_well_formed w w' :
  restyles w w' -> well_formed w = true -> well_formed w' = true.
Proof.
  intros Hrs Hwf. pose proof (restyles_length _ _ Hrs) as Hlen.
  destruct Hrs as [Hf Hi _ _ _ _ _ _].
  unfold well_formed in *. rewrite Hi, Hlen.
  by rewrite <- wf_heap_frame, Hf, wf_heap_frame.
Qed.

Lemma restyles_toggling w w' : restyles w w' -> toggling w = true -> toggling w' = true.
Proof.
  intros Hrs Ht. unfold toggling in *. rewrite forallb_forall in *.
  intros m' Hin. apply list_elem_of_In, list_elem_of_lookup in Hin as [r Hr].
  destruct (restyles_lookup _ _ r m' (restyles_sym _ _ Hrs) Hr) as (m & Hm & Hfr).
  rewrite <- (frame_toggles _ _ Hfr). apply Ht.
  apply list_elem_of_In, list_elem_of_lookup. eauto.
Qed.

Lemma restyles_ancestor w w' r a : restyles w w' -> ancestor w r a -> ancestor w' r a.
Proof.
  intros Hrs H. induction H as [r | r m p a Hl Hp _ IH]; [constructor|].
  destruct (restyles_lookup _ _ _ _ Hrs Hl) as (m' & Hl' & Hfr).
  eapply ancestor_parent; [exact Hl' | | exact IH].
  by rewrite (frame_parent _ _ Hfr).
Qed.

Lemma restyles_descendant w w' r d : restyles w w' -> descendant w r d -> descendant w' r d.
Proof.
  intros Hrs H. induction H as [r | r m i it s d Hl Hin Hit Hs _ IH]; [constructor|].
  destruct (restyles_lookup _ _ _ _ Hrs Hl) as (m' & Hl' & Hfr).
  eapply descendant_submenu; [exact Hl' | | | exact Hs | exact IH].
  - by rewrite (frame_items _ _ Hfr).
  - by rewrite (frame_item_at _ _ _ Hfr).
Qed.

Lemma restyles_registered w w' r : restyles w w' -> registered w r -> registered w' r.
Proof. intros [_ Hi _ _ _ _ _ _]. unfold registered. by rewrite Hi. Qed.

Lemma restyles_is_root w w' r : restyles w w' -> is_root w r -> is_root w' r.
Proof.
  intros Hrs (m & Hl & Hp).
  destruct (restyles_lookup _ _ _ _ Hrs Hl) as (m' & Hl' & Hfr).
  exists m'. split; [done|]. by rewrite (frame_parent _ _ Hfr).
Qed.

(** Storing a restyled menubox restyles the world. *)
Lemma store_restyles w r m m' :
  heap w !! r = Some m -> frame m' = frame m -> restyles w (store r m' w).
Proof.
  intros Hl Hfr. constructor; try done. simpl.
  rewrite list_fmap_insert, Hfr.
  apply list_insert_id. by rewrite list_lookup_fmap, Hl.
Qed.

Lemma store_lookup_eq w r m m' :
  heap w !! r = Some m -> heap (store r m' w) !! r = Some m'.
Proof.
  intros Hl. simpl. apply list_lookup_insert_eq. by eapply lookup_lt_Some.
Qed.

Lemma store_lookup_ne w r b m' : r <> b -> heap (store r m' w) !! b = heap w !! b.
Proof. intros Hne. simpl. by apply list_lookup_insert_ne. Qed.

(** ** Showing and hiding one menubox *)

Lemma style_get_set_eq key v e : style_get key (style_set key v e) = Some v.
Proof. unfold style_get, style_set. simpl. apply get_set_eq. Qed.

Lemma style_get_set_ne key key' v e :
  key <> key' -> style_get key' (style_set key v e) = style_get key' e.
Proof. intros. unfold style_get, style_set. simpl. by apply get_set_ne. Qed.

(** After the loop of [_setVisibility] the style [visibility] holds the
    value of the last entry of the table for that key. *)
Lemma apply_transistions_visibility h v table e :
  style_get "visibility" (apply_transistions h v table e) =
  match JSMap.get "visibility" (rev table) with
  | Some (closed, open) => Some (if v then open else closed)
  | None => style_get "visibility" e
  end.
Proof.
  induction table as [|[k [c o]] table IH] using rev_ind; [done|].
  unfold apply_transistions in *. rewrite fold_left_app. simpl.
  rewrite get_rev_snoc. simpl.
  destruct (String.eqb k "visibility") eqn:E.
  - apply String.eqb_eq in E. subst k. rewrite style_get_set_eq.
    unfold transistion_value. simpl. by destruct v.
  - rewrite style_get_set_ne; [apply IH|].
    intros ->. by rewrite String.eqb_refl in E.
Qed.

Arguments forget_style : simpl never.

Lemma forget_style_set key v e : forget_style (style_set key v e) = forget_style e.
Proof. done. Qed.

Lemma forget_style_clear key e : forget_style (style_clear key e) = forget_style e.
Proof. done. Qed.

Lemma forget_style_apply h v table e :
  forget_style (apply_transistions h v table e) = forget_style e.
Proof.
  unfold apply_transistions. revert e.
  induction table as [|entry table IH]; intros e; simpl; [done|].
  by rewrite IH.
Qed.

Lemma frame_transit h v r m : frame (transit h v r m) = frame m.
Proof. unfold frame, transit. simpl. by rewrite forget_style_apply. Qed.

Lemma forget_style_adjusted h r m anchorRect e :
  forget_style (_adjustToAnchor h r m anchorRect e) = forget_style e.
Proof. done. Qed.

Lemma forget_style_placed h r m mouseEvent anchorElement :
  forget_style (placed_element h r m mouseEvent anchorElement) = forget_style (boxElement m).
Proof. unfold placed_element. by destruct anchorElement, mouseEvent. Qed.

Lemma forget_style_clamped h r st sl rect e itemsEl :
  forget_style (fst (clamp_to_viewport h r st sl rect e itemsEl)) = forget_style e
  /\ forget_style (snd (clamp_to_viewport h r st sl rect e itemsEl)) = forget_style itemsEl.
Proof. unfold clamp_to_viewport. by repeat (destruct (Z.ltb _ _)). Qed.

(** The menubox as [popup] stores it before it switches visibility on. *)
Lemma frame_popup h r m mouseEvent ctx anchorElement :
  let e := placed_element h r m mouseEvent anchorElement in
  let clamped :=
    clamp_to_viewport h r (scrollPos_top h m) (scrollPos_left h m)
      (getBoundingClientRect h r e) e (reset_itemsElement m) in
  frame (set_context ctx
           (set_itemsElement (snd clamped) (set_boxElement (fst clamped) m))) = frame m.
Proof.
  intros e clamped. unfold frame. simpl.
  destruct (forget_style_clamped h r (scrollPos_top h m) (scrollPos_left h m)
              (getBoundingClientRect h r e) e (reset_itemsElement m)) as [H1 H2].
  fold clamped in H1, H2. rewrite H1, H2.
  unfold e. by rewrite forget_style_placed.
Qed.

Lemma is_visible_transit h v r m :
  toggles_visibility m = true -> is_visible (transit h v r m) = v.
Proof.
  unfold toggles_visibility, is_visible, transit. simpl.
  rewrite apply_transistions_visibility.
  destruct (JSMap.get "visibility" (rev (transistions m))) as [[c o]|]; [|done].
  intros H. apply andb_true_iff in H as [Hc Ho].
  destruct v; [done|]. by apply negb_true_iff in Hc.
Qed.

Lemma _setVisibility_eq v r w m :
  heap w !! r = Some m -> _setVisibility v r w = Some (store r (transit (host w) v r m) w).
Proof. intros Hl. unfold _setVisibility. by rewrite Hl. Qed.

Lemma closed_at_transit w r m :
  heap w !! r = Some m -> closed_at (store r (transit (host w) false r m) w) r.
Proof.
  intros Hl. eexists. split; [by eapply store_lookup_eq|].
  intros Ht. apply is_visible_transit.
  by rewrite <- Ht, (frame_toggles _ _ (frame_transit _ _ _ _)).
Qed.

(** ** [close] without its flag: the menubox and its ancestors *)

Lemma ancestor_root w r m a :
  heap w !! r = Some m -> parentMenubox m = None -> ancestor w r a -> a = r.
Proof.
  intros Hl Hp H. destruct H as [|r m' p a Hl' Hp' _]; [done|]. congruence.
Qed.

Lemma ancestor_inv w r m p a :
  heap w !! r = Some m -> parentMenubox m = Some p -> ancestor w r a ->
  a = r \/ ancestor w p a.
Proof.
  intros Hl Hp H. destruct H as [|r m' p' a Hl' Hp' H]; [by left|].
  right. congruence.
Qed.

Lemma ancestor_le w r a : well_formed w = true -> ancestor w r a -> (a <= r)%nat.
Proof.
  intros Hwf H. induction H as [r | r m p a Hl Hp _ IH]; [lia|].
  pose proof (wf_parent_lt _ _ _ _ Hwf Hl Hp). lia.
Qed.

Lemma closed_at_unchanged w w' a :
  heap w' !! a = heap w !! a -> closed_at w a -> closed_at w' a.
Proof. intros Heq (m & Hl & H). exists m. by rewrite Heq. Qed.

(** With fuel beyond its own reference, [close()] completes: it hides the
    menubox and every ancestor, and changes no other menubox. *)
Lemma close_false_spec fuel : forall r w m,
  well_formed w = true -> heap w !! r = Some m -> (r < fuel)%nat ->
  exists w', close fuel false r w = Some w'
    /\ restyles w w' /\ timers w' = timers w
    /\ (forall a, ancestor w r a -> closed_at w' a)
    /\ (forall b, heap w' !! b = heap w !! b \/ ancestor w r b).
Proof.
  induction fuel as [|fuel IH]; intros r w m Hwf Hl Hfuel; [lia|].
  simpl. rewrite (_setVisibility_eq _ _ _ _ Hl).
  set (w1 := store r (transit (host w) false r m) w).
  assert (Hrs1 : restyles w w1) by (eapply store_restyles; [done | apply frame_transit]).
  assert (Hl1 : heap w1 !! r = Some (transit (host w) false r m))
    by (by eapply store_lookup_eq).
  rewrite Hl1. simpl.
  destruct (parentMenubox m) as [p|] eqn:Hp.
  - pose proof (wf_parent_lt _ _ _ _ Hwf Hl Hp) as Hlt.
    assert (Hp1 : exists mp, heap w1 !! p = Some mp).
    { apply lookup_lt_is_Some. rewrite (restyles_length _ _ Hrs1).
      apply lookup_lt_Some in Hl. lia. }
    destruct Hp1 as [mp Hlp].
    destruct (IH p w1 mp) as (w' & Hc & Hrs & Htm & Hanc & Hfr);
      [by eapply restyles_well_formed | done | lia |].
    exists w'. split; [done|]. split; [by eapply restyles_trans|].
    split; [done|]. split.
    + intros a Ha. destruct (ancestor_inv _ _ _ _ _ Hl Hp Ha) as [-> | Ha'].
      * destruct (Hfr r) as [Heq | Hr].
        -- eapply closed_at_unchanged; [exact Heq|]. by apply closed_at_transit.
        -- by apply Hanc.
      * apply Hanc. by eapply restyles_ancestor.
    + intros b. destruct (Hfr b) as [Heq | Hb].
      * destruct (decide (r = b)) as [<- | Hne]; [right; constructor|].
        left. rewrite Heq. by apply store_lookup_ne.
      * right. eapply ancestor_parent; [exact Hl | exact Hp |].
        by eapply restyles_ancestor; [apply restyles_sym|].
  - exists w1. split; [done|]. split; [done|]. split; [done|]. split.
    + intros a Ha. rewrite (ancestor_root _ _ _ _ Hl Hp Ha).
      by apply closed_at_transit.
    + intros b. destruct (decide (r = b)) as [<- | Hne]; [right; constructor|].
      left. by apply store_lookup_ne.
Qed.

(** ** [closeAll] *)

Lemma closeAll_loop fuel : forall l w,
  well_formed w = true ->
  (forall r, In r l -> (r < length (heap w))%nat) ->
  (length (heap w) <= fuel)%nat ->
  exists w', for_each (fun w' r => close fuel false r w') l w = Some w'
    /\ restyles w w' /\ timers w' = timers w
    /\ (forall r, In r l -> closed_at w' r)
    /\ (forall b, heap w' !! b = heap w !! b \/ closed_at w' b).
Proof.
  induction l as [|r l IH]; intros w Hwf Hl Hfuel.
  - exists w. split; [done|]. split; [apply restyles_refl|].
    split; [done|]. split; [by intros r []|]. intros b. by left.
  - assert (Hr : exists m, heap w !! r = Some m).
    { apply lookup_lt_is_Some. apply Hl. by left. }
    destruct Hr as [m Hm].
    destruct (close_false_spec fuel r w m Hwf Hm) as (w1 & Hc & Hrs1 & Htm1 & Hanc & Hfr).
    { apply lookup_lt_Some in Hm. lia. }
    destruct (IH w1) as (w' & Hloop & Hrs & Htm & Hcl & Hfr').
    { by eapply restyles_well_formed. }
    { intros r' Hin. rewrite (restyles_length _ _ Hrs1). apply Hl. by right. }
    { by rewrite (restyles_length _ _ Hrs1). }
    exists w'. simpl. rewrite Hc. split; [done|].
    split; [by eapply restyles_trans|]. split; [congruence|].
    assert (Hstep : forall b, closed_at w1 b -> closed_at w' b).
    { intros b Hb. destruct (Hfr' b) as [Heq|]; [|done].
      by eapply closed_at_unchanged. }
    split.
    + intros r' [<- | Hin]; [|by apply Hcl].
      apply Hstep, Hanc. constructor.
    + intros b. destruct (Hfr' b) as [Heq | Hb]; [|by right].
      destruct (Hfr b) as [Heq1 | Hb1].
      * left. congruence.
      * right. by apply Hstep, Hanc.
Qed.

(** With fuel for the whole store, [closeAll] completes: it hides every
    registered menubox, and a menubox it changes is hidden. *)
Lemma closeAll_spec fuel w :
  well_formed w = true -> (length (heap w) <= fuel)%nat ->
  exists w', closeAll fuel w = Some w'
    /\ restyles w w' /\ timers w' = timers w
    /\ (forall r, registered w r -> closed_at w' r)
    /\ (forall b, heap w' !! b = heap w !! b \/ closed_at w' b).
Proof.
  intros Hwf Hfuel. apply closeAll_loop; [done| |done].
  intros r Hr. by apply wf_registered_lt.
Qed.

(** ** [popup] *)

(** The element and the item list as [popup] places and clamps them. *)
Lemma popup_spec fuel mouseEvent ctx anchorElement r w m :
  well_formed w = true -> heap w !! r = Some m -> (length (heap w) <= fuel)%nat ->
  exists w', popup fuel mouseEvent ctx anchorElement r w = Some w'
    /\ restyles w w' /\ timers w' = timers w
    /\ (exists m', heap w' !! r = Some m' /\ context m' = ctx
          /\ (toggles_visibility m' = true -> is_visible m' = true))
    /\ (parentMenubox m = None ->
          (forall b, b <> r -> heap w' !! b = heap w !! b \/ closed_at w' b)
          /\ (forall b, registered w b -> b <> r -> closed_at w' b))
    /\ (parentMenubox m <> None -> forall b, b <> r -> heap w' !! b = heap w !! b).
Proof.
  intros Hwf Hl Hfuel. unfold popup. rewrite Hl.
  assert (Hpre : exists w1,
    match parentMenubox m with None => closeAll fuel w | Some _ => Some w end = Some w1
    /\ restyles w w1 /\ timers w1 = timers w
    /\ (parentMenubox m = None ->
          (forall b, heap w1 !! b = heap w !! b \/ closed_at w1 b)
          /\ (forall b, registered w b -> closed_at w1 b))
    /\ (parentMenubox m <> None -> w1 = w)).
  { destruct (parentMenubox m) as [p|].
    - exists w. split; [done|]. split; [apply restyles_refl|]. by repeat split.
    - destruct (closeAll_spec fuel w Hwf Hfuel) as (w1 & Hc & Hrs & Htm & Hreg & Hfr).
      exists w1. split; [done|]. split; [done|]. split; [done|].
      split; [by intros _|]. intros H. by destruct H. }
  destruct Hpre as (w1 & -> & Hrs1 & Htm1 & Hroot & Hsub).
  destruct (restyles_lookup _ _ _ _ Hrs1 Hl) as (m1 & Hl1 & Hfr1).
  rewrite Hl1.
  match goal with
  | |- context [_setVisibility true r (store r ?x w1)] => set (m2 := x)
  end.
  assert (Hl2 : heap (store r m2 w1) !! r = Some m2) by (by eapply store_lookup_eq).
  rewrite (_setVisibility_eq _ _ _ _ Hl2).
  set (w2 := store r m2 w1).
  set (m3 := transit (host w2) true r m2).
  assert (Hrs2 : restyles w1 w2)
    by (eapply store_restyles; [exact Hl1 | apply frame_popup]).
  assert (Hrs3 : restyles w2 (store r m3 w2))
    by (eapply store_restyles; [exact Hl2 | apply frame_transit]).
  assert (Hother : forall b, b <> r -> heap (store r m3 w2) !! b = heap w1 !! b).
  { intros b Hb. rewrite store_lookup_ne by done. by apply store_lookup_ne. }
  eexists. split; [reflexivity|].
  split; [eauto using restyles_trans|]. split; [done|]. split.
  - exists m3. split; [by eapply store_lookup_eq|]. split; [done|].
    intros Ht. apply is_visible_transit.
    by rewrite <- (frame_toggles m2 m3 (frame_transit _ _ _ _)).
  - split.
    + intros Hp. destruct (Hroot Hp) as [Hfr Hreg]. split.
      * intros b Hb. destruct (Hfr b) as [Heq | Hc].
        -- left. by rewrite Hother.
        -- right. eapply closed_at_unchanged; [by apply Hother | done].
      * intros b Hb Hne. eapply closed_at_unchanged; [by apply Hother | by apply Hreg].
    + intros Hp b Hb. rewrite (Hsub Hp) in *. by apply Hother.
Qed.

(** ** [close(true)] and [closeSubmenus]: the submenu subtree *)

Lemma descendant_le w r d : well_formed w = true -> descendant w r d -> (r <= d)%nat.
Proof.
  intros Hwf H. induction H as [r | r m i it s d Hl Hin Hit Hs _ IH]; [lia|].
  destruct (wf_submenu _ _ _ _ _ _ Hwf Hl Hit Hs) as [Hlt _]. lia.
Qed.

Lemma descendant_trans w r s d : descendant w r s -> descendant w s d -> descendant w r d.
Proof.
  intros H Hd. induction H as [r | r m i it s s' Hl Hin Hit Hs _ IH]; [done|].
  eapply descendant_submenu; eauto.
Qed.

Section subtree.
Variable fuel : nat.

(** What the two functions do with the fuel of the induction hypothesis. *)
Hypothesis closeSubmenus_fuel : forall r w m,
  well_formed w = true -> heap w !! r = Some m ->
  (2 * (length (heap w) - r) <= fuel)%nat ->
  exists w', closeSubmenus fuel r w = Some w'
    /\ restyles w w'
    /\ (forall d, descendant w r d -> d <> r -> closed_at w' d)
    /\ (forall b, heap w' !! b = heap w !! b \/ (descendant w r b /\ (r < b)%nat)).

Hypothesis close_true_fuel : forall r w m,
  well_formed w = true -> heap w !! r = Some m ->
  (2 * (length (heap w) - r) + 1 <= fuel)%nat ->
  exists w', close fuel true r w = Some w'
    /\ restyles w w'
    /\ (forall d, descendant w r d -> closed_at w' d)
    /\ (forall b, heap w' !! b = heap w !! b \/ descendant w r b).

(** The loop of [closeSubmenus] over item positions [l] of menubox [r],
    whose object at the start of the call was [m]. *)
Lemma closeSubmenus_loop r w m :
  well_formed w = true -> heap w !! r = Some m ->
  (2 * (length (heap w) - r) <= S fuel)%nat ->
  forall l wk,
    restyles w wk ->
    exists w',
      for_each
        (fun w' i =>
           match item_at m i with
           | Some menuItem =>
               match submenu menuItem with
               | Some s =>
                   match closeSubmenus fuel s w' with
                   | Some w2 => close fuel true s w2
                   | None => None
                   end
               | None => Some w'
               end
           | None => Some w'
           end) l wk = Some w'
      /\ restyles wk w'
      /\ (forall i it s d, In i l -> item_at m i = Some it -> submenu it = Some s ->
            descendant w s d -> closed_at w' d)
      /\ (forall b, heap w' !! b = heap wk !! b
                    \/ exists i it s, In i l /\ item_at m i = Some it
                         /\ submenu it = Some s /\ descendant w s b).
Proof.
  intros Hwf Hl Hfuel. induction l as [|i l IH]; intros wk Hrs.
  - exists wk. split; [done|]. split; [apply restyles_refl|].
    split; [by intros ? ? ? ? []|]. intros b. by left.
  - simpl. destruct (item_at m i) as [it|] eqn:Hit; cycle 1.
    { destruct (IH wk Hrs) as (w' & Hloop & Hrs' & Hcl & Hfr).
      exists w'. split; [done|]. split; [done|]. split.
      - intros i' it' s d [<- | Hin] Hit' Hs Hd; [congruence|]. eauto.
      - intros b. destruct (Hfr b) as [|(i' & it' & s & ? & ?)]; [by left|].
        right. exists i', it', s. split; [by right|]. done. }
    destruct (submenu it) as [s|] eqn:Hs; cycle 1.
    { destruct (IH wk Hrs) as (w' & Hloop & Hrs' & Hcl & Hfr).
      exists w'. split; [done|]. split; [done|]. split.
      - intros i' it' s d [<- | Hin] Hit' Hs' Hd; [congruence|]. eauto.
      - intros b. destruct (Hfr b) as [|(i' & it' & s & ? & ?)]; [by left|].
        right. exists i', it', s. split; [by right|]. done. }
    destruct (wf_submenu _ _ _ _ _ _ Hwf Hl Hit Hs) as (Hlt & ms & Hms & _).
    pose proof (lookup_lt_Some _ _ _ Hms) as Hslt.
    pose proof (restyles_well_formed _ _ Hrs Hwf) as Hwfk.
    pose proof (restyles_length _ _ Hrs) as Hlenk.
    destruct (restyles_lookup _ _ _ _ Hrs Hms) as (msk & Hmsk & _).
    destruct (closeSubmenus_fuel s wk msk Hwfk Hmsk) as (w2 & -> & Hrs2 & _ & Hfr2);
      [lia|].
    pose proof (restyles_well_formed _ _ Hrs2 Hwfk) as Hwf2.
    pose proof (restyles_length _ _ Hrs2) as Hlen2.
    destruct (restyles_lookup _ _ _ _ Hrs2 Hmsk) as (ms2 & Hms2 & _).
    destruct (close_true_fuel s w2 ms2 Hwf2 Hms2) as (w3 & -> & Hrs3 & Hcl3 & Hfr3);
      [lia|].
    assert (Hrs_w3 : restyles w w3) by eauto using restyles_trans.
    destruct (IH w3 Hrs_w3) as (w' & Hloop & Hrs' & Hcl & Hfr).
    exists w'. split; [done|]. split; [eauto using restyles_trans|].
    assert (Hdesc3 : forall b, descendant w3 s b -> descendant w s b).
    { intros b. apply restyles_descendant. by apply restyles_sym. }
    assert (Hdesc2 : forall b, descendant w s b -> descendant w2 s b).
    { intros b. apply restyles_descendant. eauto using restyles_trans. }
    split.
    + intros i' it' s' d [<- | Hin] Hit' Hs' Hd; [|eauto].
      assert (s' = s) as -> by congruence.
      destruct (Hfr d) as [Heq | (i2 & it2 & s2 & Hin2 & Hit2 & Hs2 & Hd2)]; [|eauto].
      eapply closed_at_unchanged; [exact Heq|]. by apply Hcl3, Hdesc2.
    + intros b. destruct (Hfr b) as [Heq | (i2 & it2 & s2 & Hin2 & ?)].
      * destruct (Hfr3 b) as [Heq3 | Hd3].
        -- destruct (Hfr2 b) as [Heq2 | [Hd2 _]].
           ++ left. congruence.
           ++ right. exists i, it, s. split; [by left|]. split; [done|].
              split; [done|].
              eapply restyles_descendant; [apply restyles_sym; exact Hrs | done].
        -- right. exists i, it, s. split; [by left|]. split; [done|].
           split; [done|].
           eapply restyles_descendant; [|exact Hd3].
           apply restyles_sym. eauto using restyles_trans.
      * right. exists i2, it2, s2. split; [by right|]. done.
Qed.
End subtree.

Lemma clearCurrentSubmenuTimer_restyles w : restyles w (clearCurrentSubmenuTimer w).
Proof.
  unfold clearCurrentSubmenuTimer.
  destruct (currentSubmenuTimerId w) as [tid|]; [|apply restyles_refl].
  destruct (Nat.ltb 0 tid); [|apply restyles_refl]. by constructor.
Qed.

Lemma clearCurrentSubmenuTimer_heap w : heap (clearCurrentSubmenuTimer w) = heap w.
Proof.
  unfold clearCurrentSubmenuTimer.
  destruct (currentSubmenuTimerId w) as [tid|]; [|done]. by destruct (Nat.ltb 0 tid).
Qed.

(** With fuel for twice the part of the store above [r], [closeSubmenus]
    completes and hides every submenu below [r], and [close(true)] with one
    more also hides [r]; neither changes a menubox outside the subtree. *)
Lemma subtree_spec fuel :
  (forall r w m,
     well_formed w = true -> heap w !! r = Some m ->
     (2 * (length (heap w) - r) <= fuel)%nat ->
     exists w', closeSubmenus fuel r w = Some w'
       /\ restyles w w'
       /\ (forall d, descendant w r d -> d <> r -> closed_at w' d)
       /\ (forall b, heap w' !! b = heap w !! b \/ (descendant w r b /\ (r < b)%nat)))
  /\ (forall r w m,
        well_formed w = true -> heap w !! r = Some m ->
        (2 * (length (heap w) - r) + 1 <= fuel)%nat ->
        exists w', close fuel true r w = Some w'
          /\ restyles w w'
          /\ (forall d, descendant w r d -> closed_at w' d)
          /\ (forall b, heap w' !! b = heap w !! b \/ descendant w r b)).
Proof.
  induction fuel as [|fuel [IH1 IH2]].
  - split; intros r w m Hwf Hl Hf; apply lookup_lt_Some in Hl; lia.
  - split.
    + intros r w m Hwf Hl Hf. simpl. rewrite Hl.
      destruct (closeSubmenus_loop fuel IH1 IH2 r w m Hwf Hl Hf
                  (JSMap.values (items m)) (clearCurrentSubmenuTimer w)
                  (clearCurrentSubmenuTimer_restyles w))
        as (w' & -> & Hrs & Hcl & Hfr).
      exists w'. split; [done|].
      split; [eauto using restyles_trans, clearCurrentSubmenuTimer_restyles|].
      split.
      * intros d Hd Hne.
        destruct Hd as [|r m' i it s d Hl' Hin Hit Hs Hd]; [done|].
        assert (m' = m) as -> by congruence. eauto.
      * intros b. destruct (Hfr b) as [Heq | (i & it & s & Hin & Hit & Hs & Hd)].
        -- left. by rewrite Heq, clearCurrentSubmenuTimer_heap.
        -- right. split; [eapply descendant_submenu; eauto|].
           destruct (wf_submenu _ _ _ _ _ _ Hwf Hl Hit Hs) as [Hlt _].
           pose proof (descendant_le _ _ _ Hwf Hd). lia.
    + intros r w m Hwf Hl Hf. simpl. rewrite (_setVisibility_eq _ _ _ _ Hl).
      set (w1 := store r (transit (host w) false r m) w).
      assert (Hrs1 : restyles w w1) by (eapply store_restyles; [done | apply frame_transit]).
      assert (Hl1 : heap w1 !! r = Some (transit (host w) false r m))
        by (by eapply store_lookup_eq).
      destruct (IH1 r w1 _ (restyles_well_formed _ _ Hrs1 Hwf) Hl1)
        as (w' & -> & Hrs & Hcl & Hfr).
      { rewrite (restyles_length _ _ Hrs1). lia. }
      exists w'. split; [done|]. split; [eauto using restyles_trans|]. split.
      * intros d Hd. destruct (decide (d = r)) as [-> | Hne].
        -- destruct (Hfr r) as [Heq | [_ Hlt]]; [|lia].
           eapply closed_at_unchanged; [exact Heq|]. by apply closed_at_transit.
        -- apply Hcl; [|done]. by eapply restyles_descendant.
      * intros b. destruct (Hfr b) as [Heq | [Hd _]].
        -- destruct (decide (r = b)) as [<- | Hne]; [right; constructor|].
           left. rewrite Heq. by apply store_lookup_ne.
        -- right. eapply restyles_descendant; [apply restyles_sym; exact Hrs1 | done].
Qed.

(** ** Closing a submenu *)

Lemma closed_at_hidden w a : toggling w = true -> closed_at w a -> visible w a = false.
Proof.
  intros Ht (m & Hl & H). unfold visible. rewrite Hl. apply H.
  unfold toggling in Ht. rewrite forallb_forall in Ht. apply Ht.
  apply list_elem_of_In, list_elem_of_lookup. eauto.
Qed.

Lemma ancestor_proper_lt w r a :
  well_formed w = true -> ancestor w r a -> a <> r -> (a < r)%nat.
Proof.
  intros Hwf H Hne. destruct H as [|r m p a Hl Hp H]; [done|].
  pose proof (wf_parent_lt _ _ _ _ Hwf Hl Hp).
  pose proof (ancestor_le _ _ _ Hwf H). lia.
Qed.


Lemma sample_world_eq :
  run Sample.setup (initial_world Sample.document) = Some Sample.world.
Proof. vm_compute. reflexivity. Qed.


(** ** Root menuboxes exclude each other *)

(** [popup] on a menubox that has a parent calls nothing that recurses: it
    completes in any world and changes only that menubox. *)
Lemma popup_submenu fuel mouseEvent ctx anchorElement r w m p :
  heap w !! r = Some m -> parentMenubox m = Some p ->
  exists w', popup fuel mouseEvent ctx anchorElement r w = Some w'
    /\ restyles w w' /\ timers w' = timers w
    /\ (forall b, b <> r -> heap w' !! b = heap w !! b).
Proof.
  intros Hl Hp. unfold popup. rewrite Hl, Hp, Hl.
  match goal with
  | |- context [_setVisibility true r (store r ?x w)] => set (m2 := x)
  end.
  assert (Hl2 : heap (store r m2 w) !! r = Some m2) by (by eapply store_lookup_eq).
  rewrite (_setVisibility_eq _ _ _ _ Hl2).
  eexists. split; [reflexivity|]. split; [|split; [done|]].
  - eapply restyles_trans; [|eapply store_restyles; [done | apply frame_transit]].
    eapply store_restyles; [done | apply frame_popup].
  - intros b Hb. rewrite store_lookup_ne by done. by apply store_lookup_ne.
Qed.

Lemma root_popup_restyles w w' ev : restyles w w' -> root_popup w ev -> root_popup w' ev.
Proof.
  intros Hrs. destruct ev; simpl; try done.
  intros [Hreg Hroot]. split; [by eapply restyles_registered | by eapply restyles_is_root].
Qed.

(** A [popup] on a registered root shows it and hides every other
    registered menubox. *)
Lemma popup_root_step w r mouseEvent ctx anchor :
  well_formed w = true -> toggling w = true -> registered w r -> is_root w r ->
  exists w', step w (Popup r mouseEvent ctx anchor) = Some w'
    /\ restyles w w'
    /\ visible w' r = true
    /\ (forall b, registered w' b -> b <> r -> visible w' b = false).
Proof.
  intros Hwf Htg Hreg (m & Hl & Hp). simpl.
  destruct (popup_spec (enough w) mouseEvent ctx anchor r w m Hwf Hl)
    as (w' & Hpop & Hrs & _ & (m' & Hl' & _ & Hvis) & Hroot & _);
    [unfold enough; lia|].
  exists w'. split; [done|]. split; [done|].
  pose proof (restyles_toggling _ _ Hrs Htg) as Htg'. split.
  - unfold visible. rewrite Hl'. apply Hvis.
    unfold toggling in Htg'. rewrite forallb_forall in Htg'. apply Htg'.
    apply list_elem_of_In, list_elem_of_lookup. eauto.
  - intros b Hb Hne. apply closed_at_hidden; [done|].
    apply (proj2 (Hroot Hp)); [|done].
    by eapply restyles_registered; [apply restyles_sym|].
Qed.

Lemma popup_roots_run : forall evs w,
  well_formed w = true -> toggling w = true ->
  Forall (root_popup w) evs -> one_root_visible w ->
  exists w', run evs w = Some w' /\ restyles w w' /\ one_root_visible w'.
Proof.
  induction evs as [|ev evs IH]; intros w Hwf Htg Hall Hone.
  - exists w. split; [done|]. split; [apply restyles_refl | done].
  - inversion Hall as [|? ? Hev Hall']. subst. clear Hall. rename Hall' into Hall.
    destruct ev as [| r me ctx anchor | | | | | | | | | | | | |]; try done.
    destruct Hev as [Hreg Hroot].
    destruct (popup_root_step w r me ctx anchor Hwf Htg Hreg Hroot)
      as (w1 & Hstep & Hrs & Hvis & Hothers).
    destruct (IH w1) as (w' & Hrun & Hrs' & Hone').
    + by eapply restyles_well_formed.
    + by eapply restyles_toggling.
    + eapply Forall_impl; [|exact Hall]. intros ev. by apply root_popup_restyles.
    + intros r1 r2 Hr1 _ Hv1 Hr2 _ Hv2.
      destruct (decide (r1 = r)) as [-> | Hne1];
        [|rewrite (Hothers r1 Hr1 Hne1) in Hv1; done].
      destruct (decide (r2 = r)) as [-> | Hne2]; [done|].
      rewrite (Hothers r2 Hr2 Hne2) in Hv2. done.
    + exists w'. unfold run in *. simpl in *. rewrite Hstep.
      split; [done|]. split; [eauto using restyles_trans | done].
Qed.



(** ** [toggle] *)

Lemma toggling_lookup w r m : toggling w = true -> heap w !! r = Some m -> toggles_visibility m = true.
Proof.
  intros Ht Hl. unfold toggling in Ht. rewrite forallb_forall in Ht. apply Ht.
  apply list_elem_of_In, list_elem_of_lookup. eauto.
Qed.

(** One call of [toggle]: it completes, flips the visibility of the menubox
    and returns the visibility it leaves. *)
Lemma toggle_once fuel mouseEvent ctx anchor r w m :
  well_formed w = true -> toggling w = true -> heap w !! r = Some m ->
  (enough w <= fuel)%nat ->
  exists result w', toggle fuel mouseEvent ctx anchor r w = Some (result, w')
    /\ restyles w w'
    /\ result = visible w' r
    /\ result = negb (visible w r).
Proof.
  intros Hwf Htg Hl Hfuel. unfold enough in Hfuel.
  pose proof (lookup_lt_Some _ _ _ Hl) as Hlt.
  unfold toggle, visible. rewrite Hl.
  destruct (is_visible m) eqn:Hv; simpl.
  - destruct (proj2 (subtree_spec fuel) r w m Hwf Hl) as (w' & -> & Hrs & Hcl & _);
      [lia|].
    exists false, w'. split; [done|]. split; [done|]. split; [|done].
    symmetry. apply (closed_at_hidden w' r); [by eapply restyles_toggling|].
    apply Hcl. constructor.
  - destruct (popup_spec fuel (Some mouseEvent) ctx anchor r w m Hwf Hl)
      as (w' & -> & Hrs & _ & (m' & Hl' & _ & Hvis) & _); [lia|].
    exists true, w'. split; [done|]. split; [done|]. split; [|done].
    rewrite Hl'. symmetry. apply Hvis.
    eapply toggling_lookup; [|exact Hl']. by eapply restyles_toggling.
Qed.



(** ** Click dispatch *)

Lemma item_at_node m i it : item_at m i = Some it -> nodes m !! i = Some (ItemNode it).
Proof.
  unfold item_at. destruct (nodes m !! i) as [[e|it']|]; try done. by intros [= ->].
Qed.

(** A click on the element of an item of the collection resolves to it. *)
Lemma clicked_key_item w r m k i it :
  well_formed w = true -> heap w !! r = Some m ->
  JSMap.get k (items m) = Some i -> item_at m i = Some it ->
  clicked_key m (OnNode i) = Some k.
Proof.
  intros Hwf Hl Hk Hit.
  destruct (wf_item_entry _ _ _ _ _ Hwf Hl Hk) as (it' & Hit' & Hc & Hd).
  assert (it' = it) as -> by congruence.
  unfold clicked_key, target_path. rewrite (item_at_node _ _ _ Hit). simpl.
  by rewrite Hc.
Qed.

Lemma ancestor_same_heap w w' r a : heap w' = heap w -> ancestor w r a -> ancestor w' r a.
Proof.
  intros Heq H. induction H as [r | r m p a Hl Hp _ IH]; [constructor|].
  eapply ancestor_parent; [by rewrite Heq | exact Hp | exact IH].
Qed.



(** ** Multiselect and [getCheckedItems] *)

Lemma getCheckedItems_filter m :
  getCheckedItems m =
  List.filter (fun i => match item_at m i with
                        | Some it => Item.checked it
                        | None => false
                        end) (JSMap.values (items m)).
Proof.
  unfold getCheckedItems.
  assert (H : forall l acc,
    fold_left (fun result i =>
                 match item_at m i with
                 | Some menuItem => if Item.checked menuItem then result ++ [i] else result
                 | None => result
                 end) l acc
    = acc ++ List.filter (fun i => match item_at m i with
                                   | Some it => Item.checked it
                                   | None => false
                                   end) l).
  { induction l as [|i l IH]; intros acc; simpl; [by rewrite app_nil_r|].
    rewrite IH. destruct (item_at m i) as [it|]; [|done].
    destruct (Item.checked it); [|done]. by rewrite <- app_assoc. }
  by rewrite H.
Qed.

Lemma store_item_lookup w r m i it :
  heap w !! r = Some m ->
  heap (store_item r i it w) !! r = Some (set_nodes (<[i := ItemNode it]> (nodes m)) m).
Proof. intros Hl. unfold store_item. rewrite Hl. by eapply store_lookup_eq. Qed.

Lemma store_item_lookup_ne w r b i it :
  r <> b -> heap (store_item r i it w) !! b = heap w !! b.
Proof.
  intros Hne. unfold store_item. destruct (heap w !! r); [|done]. by apply store_lookup_ne.
Qed.



(** ** Keeping the menubox inside the viewport *)

Lemma style_px_set_eq key z e : style_px key (style_set key (Px z) e) = z.
Proof. unfold style_px. by rewrite style_get_set_eq. Qed.

Lemma style_px_set_ne key key' v e :
  key <> key' -> style_px key' (style_set key v e) = style_px key' e.
Proof. intros. unfold style_px. by rewrite style_get_set_ne. Qed.

Lemma position_fixed_set key v e :
  key <> "position" -> position_fixed (style_set key v e) = position_fixed e.
Proof. intros. unfold position_fixed. by rewrite style_get_set_ne. Qed.

Lemma position_fixed_adjusted h r m anchorRect e :
  position_fixed (_adjustToAnchor h r m anchorRect e) = position_fixed e.
Proof. unfold _adjustToAnchor. by rewrite !position_fixed_set. Qed.

Lemma position_fixed_placed h r m mouseEvent anchorElement :
  position_fixed (placed_element h r m mouseEvent anchorElement)
  = position_fixed (boxElement m).
Proof.
  unfold placed_element.
  destruct anchorElement as [a|], mouseEvent as [ev|];
    rewrite ?position_fixed_adjusted, ?position_fixed_set; done.
Qed.

Lemma clamp_position_fixed h r st sl rect e itemsEl :
  position_fixed (fst (clamp_to_viewport h r st sl rect e itemsEl)) = position_fixed e.
Proof.
  unfold clamp_to_viewport.
  repeat (destruct (Z.ltb _ _)); simpl; rewrite ?position_fixed_set; done.
Qed.

Lemma clamp_left h r st sl rect e itemsEl :
  visualViewport_width h < rect_left rect + rect_width rect ->
  style_get "left" (fst (clamp_to_viewport h r st sl rect e itemsEl))
  = Some (Px (Z.max sl (sl + visualViewport_width h - rect_width rect))).
Proof.
  intros Hover. unfold clamp_to_viewport, rect_right.
  destruct (Z.ltb_spec (visualViewport_width h) (rect_left rect + rect_width rect)); [|lia].
  repeat (destruct (Z.ltb _ _)); simpl;
    rewrite ?(style_get_set_ne "top" "left") by done; apply style_get_set_eq.
Qed.

Lemma clamp_top h r st sl rect e itemsEl :
  visualViewport_height h < rect_top rect + rect_height rect ->
  style_get "top" (fst (clamp_to_viewport h r st sl rect e itemsEl))
  = Some (Px (Z.max st (st + visualViewport_height h - rect_height rect))).
Proof.
  intros Hover. unfold clamp_to_viewport, rect_bottom.
  destruct (Z.ltb_spec (visualViewport_height h) (rect_top rect + rect_height rect)); [|lia].
  repeat (destruct (Z.ltb _ _)); simpl; apply style_get_set_eq.
Qed.

Lemma clamp_items h r st sl rect e itemsEl :
  visualViewport_height h < rect_top rect + rect_height rect ->
  visualViewport_height h < rect_height rect ->
  style_get "height" (snd (clamp_to_viewport h r st sl rect e itemsEl))
  = Some (Px (items_offsetHeight (metrics h r)
              - (rect_height rect - visualViewport_height h)))
  /\ style_get "overflowY" (snd (clamp_to_viewport h r st sl rect e itemsEl))
     = Some (Tok "scroll").
Proof.
  intros Hover Htall. unfold clamp_to_viewport, rect_bottom.
  destruct (Z.ltb_spec (visualViewport_height h) (rect_top rect + rect_height rect)); [|lia].
  destruct (Z.ltb_spec (visualViewport_height h) (rect_height rect)); [|lia].
  simpl. split; [|apply style_get_set_eq].
  rewrite (style_get_set_ne "overflowY" "height") by done. apply style_get_set_eq.
Qed.


(** ** Induction over nested definitions *)

Lemma Menubox2Definition_nested_ind (P : Menubox2Definition -> Prop) :
  (forall options,
     (forall p sd, In p (opt_items options) -> prop_submenu p = Some sd -> P sd) ->
     P options) ->
  forall options, P options.
Proof.
  intros H. fix IH 1. intros options. apply H.
  destruct options as [c pos adj tr sm cb its delay]. simpl.
  induction its as [|p its IHits]; intros q sd Hin Hq; [destruct Hin|].
  destruct Hin as [<- | Hin]; [|by eapply IHits].
  destruct p as [sep k lbl pcb chk en cls sub]. simpl in Hq.
  destruct sub as [sub|]; [|discriminate].
  injection Hq as <-. apply IH.
Qed.

(** ** What the closing operations change, whenever they complete *)

Lemma for_each_invariant {A S : Type} (Inv : S -> Prop) (body : S -> A -> option S) l :
  (forall s a s', In a l -> Inv s -> body s a = Some s' -> Inv s') ->
  forall s s', Inv s -> for_each body l s = Some s' -> Inv s'.
Proof.
  induction l as [|a l IH]; intros Hbody s s' Hs Hrun; simpl in Hrun.
  - by injection Hrun as <-.
  - destruct (body s a) as [s1|] eqn:E; [|done].
    eapply IH; [|eapply Hbody; [by left | exact Hs | exact E] | exact Hrun].
    intros s2 a2 s3 Hin. apply Hbody. by right.
Qed.

Lemma clearTimeout_idem tid w :
  timers (clearTimeout tid (clearTimeout tid w)) = timers (clearTimeout tid w).
Proof.
  simpl. induction (timers w) as [|t l IH]; simpl; [done|].
  destruct (negb (Nat.eqb (fst t) tid)) eqn:E; simpl; [|done]. by rewrite E, IH.
Qed.

Lemma cleared_eq w w' :
  currentSubmenuTimerId w' = currentSubmenuTimerId w ->
  timers w' = timers w \/ timers w' = cleared w ->
  cleared w' = cleared w.
Proof.
  intros Hc Ht. unfold cleared, clearCurrentSubmenuTimer in *. rewrite Hc.
  destruct (currentSubmenuTimerId w) as [tid|]; [|by destruct Ht].
  destruct (Nat.ltb 0 tid); [|by destruct Ht].
  destruct Ht as [Ht | Ht]; simpl in *; rewrite Ht; [done|].
  apply (clearTimeout_idem tid w).
Qed.

Lemma _setVisibility_restyles v r w w' :
  _setVisibility v r w = Some w' -> restyles w w' /\ timers w' = timers w.
Proof.
  unfold _setVisibility. destruct (heap w !! r) as [m|] eqn:Hl; [|done].
  intros [= <-]. split; [|done]. eapply store_restyles; [done | apply frame_transit].
Qed.

(** Whenever they complete, [close] and [closeSubmenus] have restyled the
    world; [close()] keeps the pending timers, the other two leave them
    cleared of the current handle. *)
Lemma close_effect fuel :
  (forall flag r w w',
     close fuel flag r w = Some w' ->
     restyles w w' /\ timers w' = if flag then cleared w else timers w)
  /\ (forall r w w',
        closeSubmenus fuel r w = Some w' -> restyles w w' /\ timers w' = cleared w).
Proof.
  induction fuel as [|fuel [IHc IHs]]; [by split|]. split.
  - intros flag r w w'. simpl.
    destruct (_setVisibility false r w) as [w1|] eqn:Hv; [|done].
    apply _setVisibility_restyles in Hv as [Hrs1 Ht1].
    destruct flag.
    + intros H. apply IHs in H as [Hrs Ht].
      split; [eauto using restyles_trans|]. rewrite Ht.
      apply cleared_eq; [apply (rs_current _ _ Hrs1) | by left].
    + destruct (heap w1 !! r) as [m|]; [|done].
      destruct (parentMenubox m) as [p|].
      * intros H. apply (IHc false) in H as [Hrs Ht].
        split; [eauto using restyles_trans | congruence].
      * by intros [= <-].
  - intros r w w'. simpl. destruct (heap w !! r) as [m|]; [|done].
    intros H.
    apply (for_each_invariant
             (fun wk => restyles w wk /\ timers wk = cleared w)) in H; [done| |].
    + intros wk i w2 _ [Hrs Ht] Hbody.
      destruct (item_at m i) as [it|]; [|by injection Hbody as <-].
      destruct (submenu it) as [s|]; [|by injection Hbody as <-].
      destruct (closeSubmenus fuel s wk) as [w1|] eqn:E1; [|done].
      apply IHs in E1 as [Hrs1 Ht1]. apply (IHc true) in Hbody as [Hrs2 Ht2].
      assert (Hc1 : cleared wk = cleared w).
      { apply cleared_eq; [apply (rs_current _ _ Hrs) | by right]. }
      split; [eauto using restyles_trans|].
      rewrite Ht2. rewrite <- Hc1.
      apply cleared_eq; [apply (rs_current _ _ Hrs1) | by right].
    + split; [apply clearCurrentSubmenuTimer_restyles | done].
Qed.

Lemma closeAll_effect fuel w w' :
  closeAll fuel w = Some w' -> restyles w w' /\ timers w' = timers w.
Proof.
  unfold closeAll. intros H.
  apply (for_each_invariant (fun wk => restyles w wk /\ timers wk = timers w)) in H;
    [done| |split; [apply restyles_refl | done]].
  intros wk r w2 _ [Hrs Ht] Hbody.
  apply (proj1 (close_effect fuel) false) in Hbody as [Hrs2 Ht2].
  split; [eauto using restyles_trans | congruence].
Qed.

Lemma popup_effect fuel mouseEvent ctx anchor r w w' :
  popup fuel mouseEvent ctx anchor r w = Some w' -> restyles w w' /\ timers w' = timers w.
Proof.
  unfold popup. destruct (heap w !! r) as [m0|]; [|done].
  destruct (match parentMenubox m0 with
            | Some _ => Some w
            | None => closeAll fuel w
            end) as [w1|] eqn:Hpre; [|done].
  assert (H1 : restyles w w1 /\ timers w1 = timers w).
  { destruct (parentMenubox m0).
    - injection Hpre as <-. split; [apply restyles_refl | done].
    - by apply (closeAll_effect fuel). }
  destruct H1 as [Hrs1 Ht1].
  destruct (heap w1 !! r) as [m|] eqn:Hl1; [|done].
  intros H. apply _setVisibility_restyles in H as [Hrs2 Ht2].
  split.
  - eapply restyles_trans; [exact Hrs1|]. eapply restyles_trans; [|exact Hrs2].
    eapply store_restyles; [done | apply frame_popup].
  - rewrite Ht2. simpl. done.
Qed.

(** ** The constructor *)

Arguments shell : simpl never.

Lemma extends_refl w : extends w w.
Proof. constructor; eauto. Qed.

Lemma extends_trans w1 w2 w3 : extends w1 w2 -> extends w2 w3 -> extends w1 w3.
Proof.
  intros [F1 ? ? ? ? ?] [F2 ? ? ? ? ?]. constructor; try congruence.
  intros b m Hl. destruct (F1 _ _ Hl) as (m2 & Hl2 & Hf2).
  destruct (F2 _ _ Hl2) as (m3 & Hl3 & Hf3). exists m3. split; [done | congruence].
Qed.

Lemma restyles_extends w w' : restyles w w' -> timers w' = timers w -> extends w w'.
Proof.
  intros Hrs Ht. constructor; try done; try apply Hrs.
  intros b m Hl. by eapply restyles_lookup.
Qed.

Lemma frame_shell m m' : frame m' = frame m -> shell m' = shell m.
Proof. intros H. unfold shell. by rewrite H. Qed.

Lemma shell_selectMode m m' : shell m' = shell m -> selectMode m' = selectMode m.
Proof. intros H. by apply (f_equal selectMode) in H. Qed.

Lemma shell_isMultiselect m m' : shell m' = shell m -> isMultiselect m' = isMultiselect m.
Proof. intros H. unfold isMultiselect. by rewrite (shell_selectMode _ _ H). Qed.

Lemma extends_extends_off self w w' : extends w w' -> extends_off self w w'.
Proof.
  intros [F ? ? ? ? ?]. constructor; try done.
  - intros b m _ Hl. eauto.
  - intros m Hl. destruct (F _ _ Hl) as (m' & Hl' & Hf). exists m'.
    split; [done | by apply frame_shell].
Qed.

Lemma extends_off_trans self w1 w2 w3 :
  extends_off self w1 w2 -> extends_off self w2 w3 -> extends_off self w1 w3.
Proof.
  intros [F1 S1 ? ? ? ? ?] [F2 S2 ? ? ? ? ?]. constructor; try congruence.
  - intros b m Hb Hl. destruct (F1 _ _ Hb Hl) as (m2 & Hl2 & Hf2).
    destruct (F2 _ _ Hb Hl2) as (m3 & Hl3 & Hf3). exists m3. split; [done | congruence].
  - intros m Hl. destruct (S1 _ Hl) as (m2 & Hl2 & Hf2).
    destruct (S2 _ Hl2) as (m3 & Hl3 & Hf3). exists m3. split; [done | congruence].
Qed.

Lemma store_extends_off self m m' w :
  heap w !! self = Some m -> shell m' = shell m -> extends_off self w (store self m' w).
Proof.
  intros Hl Hs. constructor; try done.
  - intros b mb Hb Hlb. exists mb. split; [|done]. by rewrite store_lookup_ne.
  - intros m0 Hl0. exists m'. split; [by eapply store_lookup_eq | congruence].
Qed.

Lemma extends_off_refl self w : extends_off self w w.
Proof. apply extends_extends_off, extends_refl. Qed.

Lemma appendChild_extends_off self n w : extends_off self w (appendChild self n w).
Proof.
  unfold appendChild. destruct (heap w !! self) as [m|] eqn:Hl; [|apply extends_off_refl].
  by eapply store_extends_off.
Qed.

Lemma items_set_extends_off self k i w : extends_off self w (items_set self k i w).
Proof.
  unfold items_set. destruct (heap w !! self) as [m|] eqn:Hl; [|apply extends_off_refl].
  by eapply store_extends_off.
Qed.

Lemma allocate_heap id options forced parent w :
  heap (allocate id options forced parent w)
  = heap w ++ [blank_menubox id options forced parent].
Proof. unfold allocate. by destruct (JSMap.has id (instances w)). Qed.

Lemma allocate_extends id options forced parent w :
  extends w (allocate id options forced parent w).
Proof.
  constructor; try (unfold allocate; by destruct (JSMap.has id (instances w))).
  intros b m Hl. exists m. split; [|done].
  rewrite allocate_heap. rewrite lookup_app_l; [done|]. by eapply lookup_lt_Some.
Qed.

Lemma new_Menubox2_unfold id options forced parent w :
  new_Menubox2 id options forced parent w =
  match __setItems new_Menubox2 (length (heap w)) (opt_items options)
          (allocate id options forced parent w) with
  | None => None
  | Some w2 =>
      let w3 := set_instances (JSMap.set id (length (heap w)) (instances w2)) w2 in
      match closeAll (S (length (heap w3))) w3 with
      | Some w4 => Some (length (heap w), w4)
      | None => None
      end
  end.
Proof. by destruct options. Qed.

(** The item constructor, given that the menubox constructor extends the
    world when it builds the item's submenu. *)
Lemma new_Menubox2Item_spec mk properties parent w pm it w' :
  (forall sd, prop_submenu properties = Some sd ->
     forall id forced p w0 s w1, mk id sd forced p w0 = Some (s, w1) -> extends w0 w1) ->
  heap w !! parent = Some pm ->
  new_Menubox2Item mk properties parent w = Some (it, w') ->
  extends w w'
  /\ key it = prop_key properties /\ menubox it = parent
  /\ element it = item_element (isMultiselect pm) properties
  /\ (submenu it <> None <->
      truthy_key (prop_key properties) = true /\ prop_submenu properties <> None).
Proof.
  intros Hmk Hl. unfold new_Menubox2Item. rewrite Hl.
  unfold item_element.
  destruct (truthy_key (prop_key properties)) eqn:Hk.
  - destruct (prop_submenu properties) as [sd|] eqn:Hsd.
    + destruct (mk _ sd _ _ w) as [[s w1]|] eqn:Hcall; [|done].
      pose proof (Hmk sd eq_refl _ _ _ _ _ _ Hcall) as Hext.
      destruct (ext_frame _ _ Hext _ _ Hl) as (pm' & -> & Hf).
      rewrite (shell_isMultiselect _ _ (frame_shell _ _ Hf)).
      intros [= <- <-]. split; [done|]. repeat split; try done.
    + rewrite Hl. intros [= <- <-]. split; [apply extends_refl|].
      repeat split; try done. by intros [_ ?].
  - rewrite Hl. intros [= <- <-]. split; [apply extends_refl|].
    repeat split; try done. by intros [? _].
Qed.

Lemma frame_fields m m' :
  frame m' = frame m -> nodes m' = nodes m /\ items m' = items m /\ shell m' = shell m.
Proof. intros H. by rewrite (frame_nodes _ _ H), (frame_items _ _ H), (frame_shell _ _ H). Qed.

(** The loop of [__setItems] from a world in which menubox [self] is [m0]. *)
Lemma __setItems_spec mk self : forall itemDefs,
  (forall p sd, In p itemDefs -> prop_submenu p = Some sd ->
     forall id forced q w0 s w1, mk id sd forced q w0 = Some (s, w1) -> extends w0 w1) ->
  forall w m0 w',
    heap w !! self = Some m0 ->
    __setItems mk self itemDefs w = Some w' ->
    extends_off self w w'
    /\ exists m' new,
         heap w' !! self = Some m'
         /\ nodes m' = nodes m0 ++ new
         /\ Forall2 (renders self (isMultiselect m0)) itemDefs new
         /\ items m' = collect itemDefs (length (nodes m0)) (items m0).
Proof.
  induction itemDefs as [|d rest IH]; intros Hmk w m0 w' Hl Hrun; simpl in Hrun.
  - injection Hrun as <-. split; [apply extends_off_refl|].
    exists m0, []. rewrite app_nil_r. repeat split; [done | constructor].
  - assert (Hmk' : forall p sd, In p rest -> prop_submenu p = Some sd ->
              forall id forced q w0 s w1, mk id sd forced q w0 = Some (s, w1) -> extends w0 w1).
    { intros p sd Hin. apply Hmk. by right. }
    destruct (separator d) eqn:Hsep.
    + set (n := HrNode (__newElement "menubox-separator")) in *.
      set (m1 := set_nodes (nodes m0 ++ [n]) m0).
      assert (Hl1 : heap (appendChild self n w) !! self = Some m1).
      { unfold appendChild. rewrite Hl. by eapply store_lookup_eq. }
      destruct (IH Hmk' _ m1 _ Hl1 Hrun) as (Hext & m' & new & Hl' & Hn & Hr & Hi).
      split; [eapply extends_off_trans; [apply appendChild_extends_off | exact Hext]|].
      exists m', (n :: new). split; [done|]. split; [|split].
      * rewrite Hn. simpl. by rewrite <- app_assoc.
      * constructor; [|done]. unfold renders. by rewrite Hsep.
      * rewrite Hi. simpl. rewrite length_app. simpl.
        unfold enters_collection. rewrite Hsep. simpl.
        by replace (length (nodes m0) + 1)%nat with (S (length (nodes m0))) by lia.
    + destruct (new_Menubox2Item mk d self w) as [[it wa]|] eqn:Hitem; [|done].
      destruct (new_Menubox2Item_spec mk d self w m0 it wa) as (Hexta & Hkey & Hbox & Hel & Hsub);
        [intros sd Hsd; eapply Hmk; [by left | exact Hsd] | done | done |].
      destruct (ext_frame _ _ Hexta _ _ Hl) as (ma & Hla & Hfa).
      destruct (frame_fields _ _ Hfa) as (Hna & Hia & Hsa).
      rewrite Hla in Hrun.
      set (n := ItemNode it) in *.
      set (mb := set_nodes (nodes ma ++ [n]) ma).
      assert (Hlb : heap (appendChild self n wa) !! self = Some mb).
      { unfold appendChild. rewrite Hla. by eapply store_lookup_eq. }
      assert (Hrend : renders self (isMultiselect m0) d n).
      { unfold renders. rewrite Hsep. by exists it. }
      destruct (truthy_key (prop_key d)) eqn:Hk.
      * set (k := default "" (prop_key d)) in *.
        set (mc := set_items (JSMap.set k (length (nodes ma)) (items mb)) mb).
        assert (Hlc : heap (items_set self k (length (nodes ma)) (appendChild self n wa))
                        !! self = Some mc).
        { unfold items_set. rewrite Hlb. by eapply store_lookup_eq. }
        destruct (IH Hmk' _ mc _ Hlc Hrun) as (Hext & m' & new & Hl' & Hn & Hr & Hi).
        split.
        { eapply extends_off_trans; [by apply extends_extends_off|].
          eapply extends_off_trans; [apply appendChild_extends_off|].
          eapply extends_off_trans; [apply items_set_extends_off | exact Hext]. }
        exists m', (n :: new). split; [done|]. split; [|split].
        -- rewrite Hn. simpl. rewrite Hna. by rewrite <- app_assoc.
        -- constructor; [done|].
           replace (isMultiselect m0) with (isMultiselect mc); [done|].
           unfold isMultiselect. simpl. by rewrite (shell_selectMode _ _ Hsa).
        -- rewrite Hi. simpl. rewrite length_app, Hna, Hia. simpl.
           unfold enters_collection. rewrite Hsep, Hk. simpl.
           by replace (length (nodes m0) + 1)%nat with (S (length (nodes m0))) by lia.
      * destruct (IH Hmk' _ mb _ Hlb Hrun) as (Hext & m' & new & Hl' & Hn & Hr & Hi).
        split.
        { eapply extends_off_trans; [by apply extends_extends_off|].
          eapply extends_off_trans; [apply appendChild_extends_off | exact Hext]. }
        exists m', (n :: new). split; [done|]. split; [|split].
        -- rewrite Hn. simpl. rewrite Hna. by rewrite <- app_assoc.
        -- constructor; [done|].
           replace (isMultiselect m0) with (isMultiselect mb); [done|].
           unfold isMultiselect. simpl. by rewrite (shell_selectMode _ _ Hsa).
        -- rewrite Hi. simpl. rewrite length_app, Hna, Hia. simpl.
           unfold enters_collection. rewrite Hsep, Hk. simpl.
           by replace (length (nodes m0) + 1)%nat with (S (length (nodes m0))) by lia.
Qed.

(** Every run of the constructor that returns has built the menubox its
    definition describes, and has only restyled the menuboxes there were. *)
Lemma new_Menubox2_constructed options : constructed options.
Proof.
  induction options as [options IH] using Menubox2Definition_nested_ind.
  intros id forced parent w r w'. rewrite new_Menubox2_unfold.
  set (this := length (heap w)).
  set (w1 := allocate id options forced parent w).
  destruct (__setItems new_Menubox2 this (opt_items options) w1) as [w2|] eqn:Hloop;
    simpl; [|done].
  destruct (closeAll _ _) as [w4|] eqn:Hclose; simpl; [|done].
  set (w3 := set_instances (JSMap.set id this (instances w2)) w2) in Hclose.
  intros [= <- <-].
  assert (Hl1 : heap w1 !! this = Some (blank_menubox id options forced parent)).
  { unfold w1. rewrite allocate_heap. by apply list_lookup_middle. }
  destruct (__setItems_spec new_Menubox2 this (opt_items options)) with
    (w := w1) (m0 := blank_menubox id options forced parent) (w' := w2)
    as (Hoff & m2 & new & Hl2 & Hn2 & Hr2 & Hi2); [|done|done|].
  { intros p sd Hin Hsd id' forced' q w0 s w5 Hcall.
    by destruct (IH p sd Hin Hsd _ _ _ _ _ _ Hcall) as (_ & Hext & _). }
  apply closeAll_effect in Hclose as [Hrs Ht].
  destruct (exo_self _ _ _ Hoff _ Hl1) as (m2' & Hl2' & Hs2).
  assert (m2' = m2) as -> by congruence.
  destruct (restyles_lookup w3 w4 this m2 Hrs Hl2) as (m4 & Hl4 & Hf4).
  destruct (frame_fields _ _ Hf4) as (Hn4 & Hi4 & Hs4).
  split; [done|]. split.
  - constructor.
    + intros b m Hl.
      assert (Hb : b <> this) by (apply lookup_lt_Some in Hl; unfold this; lia).
      destruct (ext_frame _ _ (allocate_extends id options forced parent w) _ _ Hl)
        as (mb1 & Hb1 & Hf1).
      destruct (exo_frame _ _ _ Hoff _ _ Hb Hb1) as (mb2 & Hb2 & Hf2).
      destruct (restyles_lookup w3 w4 b mb2 Hrs Hb2) as (mb4 & Hb4 & Hfb4).
      exists mb4. split; [done | congruence].
    + rewrite Ht. simpl. rewrite (exo_timers _ _ _ Hoff).
      apply (ext_timers _ _ (allocate_extends id options forced parent w)).
    + rewrite (rs_current _ _ Hrs). simpl. rewrite (exo_current _ _ _ Hoff).
      apply (ext_current _ _ (allocate_extends id options forced parent w)).
    + rewrite (rs_next _ _ Hrs). simpl. rewrite (exo_next _ _ _ Hoff).
      apply (ext_next _ _ (allocate_extends id options forced parent w)).
    + rewrite (rs_calls _ _ Hrs). simpl. rewrite (exo_calls _ _ _ Hoff).
      apply (ext_calls _ _ (allocate_extends id options forced parent w)).
    + rewrite (rs_host _ _ Hrs). simpl. rewrite (exo_host _ _ _ Hoff).
      apply (ext_host _ _ (allocate_extends id options forced parent w)).
  - exists m4. split; [done|]. split; [congruence|]. split.
    + rewrite Hn4, Hn2. simpl.
      replace (isMultiselect m4)
        with (isMultiselect (blank_menubox id options forced parent)); [done|].
      symmetry. apply shell_isMultiselect. congruence.
    + by rewrite Hi4, Hi2.
Qed.

(** ** The item collection of a constructed menubox *)

Section collection.
Context {V : Type}.
Implicit Types (m : list (string * V)) (k : string) (v : V).

Lemma set_elem k v k' v' m :
  In (k', v') (JSMap.set k v m) -> (k', v') = (k, v) \/ In (k', v') m.
Proof.
  induction m as [|[k0 v0] m IH]; simpl.
  - intros [H|[]]. by left.
  - destruct (String.eqb k0 k); simpl.
    + intros [H|H]; [by left | right; by right].
    + intros [H|H]; [right; by left|].
      destruct (IH H); [by left | right; by right].
Qed.

Lemma has_set k k' v m :
  JSMap.has k (JSMap.set k' v m) = true <-> k = k' \/ JSMap.has k m = true.
Proof.
  unfold JSMap.has. destruct (String.eqb_spec k' k) as [->|Hne].
  - rewrite get_set_eq. split; [by left | done].
  - rewrite get_set_ne by done. split; [by right|]. by intros [<-|].
Qed.
End collection.

Lemma collect_elem itemDefs : forall i0 acc k i,
  In (k, i) (collect itemDefs i0 acc) ->
  In (k, i) acc
  \/ exists d, (i0 <= i)%nat /\ itemDefs !! (i - i0)%nat = Some d
       /\ enters_collection d = true /\ prop_key d = Some k.
Proof.
  induction itemDefs as [|d rest IH]; intros i0 acc k i Hin; simpl in Hin; [by left|].
  apply IH in Hin as [Hin | (d' & Hle & Hd' & He & Hk)].
  - destruct (enters_collection d) eqn:He; [|by left].
    apply set_elem in Hin as [[= -> ->] | Hin]; [|by left].
    right. exists d. split; [lia|]. rewrite Nat.sub_diag. split; [done|]. split; [done|].
    unfold enters_collection in He. apply andb_true_iff in He as [_ He].
    by destruct (prop_key d).
  - right. exists d'. split; [lia|].
    replace (i - i0)%nat with (S (i - S i0)) by lia. done.
Qed.

Lemma collect_has itemDefs : forall i0 acc k,
  JSMap.has k (collect itemDefs i0 acc) = true <->
  JSMap.has k acc = true
  \/ exists d, In d itemDefs /\ enters_collection d = true /\ default "" (prop_key d) = k.
Proof.
  induction itemDefs as [|d rest IH]; intros i0 acc k; simpl.
  - split; [by left|]. by intros [|(? & [] & _)].
  - rewrite IH. split.
    + intros [H | (d' & Hin & He & Hk)].
      * destruct (enters_collection d) eqn:He; [|by left].
        apply has_set in H as [-> | H]; [|by left]. right. exists d. auto.
      * right. exists d'. auto.
    + intros [H | (d' & [<- | Hin] & He & Hk)].
      * left. destruct (enters_collection d); [|done]. apply has_set. by right.
      * left. rewrite He. apply has_set. by left.
      * right. exists d'. auto.
Qed.

Lemma collect_distinct itemDefs : forall i0 acc,
  NoDup (map fst (acc ++ entering itemDefs i0)) ->
  collect itemDefs i0 acc = acc ++ entering itemDefs i0.
Proof.
  induction itemDefs as [|d rest IH]; intros i0 acc Hnd; simpl in *.
  - by rewrite app_nil_r.
  - destruct (enters_collection d).
    + simpl in Hnd. rewrite set_fresh.
      * rewrite IH; rewrite <- app_assoc; done.
      * destruct (JSMap.get (default "" (prop_key d)) acc) as [v|] eqn:Hg; [|done].
        exfalso. apply get_Some_elem, list_elem_of_In in Hg.
        rewrite map_app in Hnd. simpl in Hnd.
        apply NoDup_ListNoDup in Hnd. apply List.NoDup_remove_2 in Hnd. apply Hnd.
        apply in_or_app. left. by apply (in_map fst) in Hg.
    + simpl in Hnd. by apply IH.
Qed.

Lemma blank_datasets id options forced parent :
  let m := blank_menubox id options forced parent in
  dataset (boxElement m) = [("menubox", id)]
  /\ dataset (wrapperElement m) = [] /\ dataset (itemsElement m) = [].
Proof.
  simpl. split; [|done].
  destruct (effective_css options forced), (opt_selectMode options) as [[]|]; done.
Qed.

Lemma shell_datasets m m' :
  shell m' = shell m ->
  dataset (boxElement m') = dataset (boxElement m)
  /\ dataset (wrapperElement m') = dataset (wrapperElement m)
  /\ dataset (itemsElement m') = dataset (itemsElement m).
Proof.
  intros H. split; [|split].
  - by apply (f_equal (fun x => dataset (boxElement x))) in H.
  - by apply (f_equal (fun x => dataset (wrapperElement x))) in H.
  - by apply (f_equal (fun x => dataset (itemsElement x))) in H.
Qed.

(** A click whose path holds no element with a key resolves to nothing. *)
Lemma clicked_key_none m t :
  Forall (fun e => JSMap.get "key" (dataset e) = None) (target_path m t) ->
  clicked_key m t = None.
Proof.
  intros H. unfold clicked_key.
  destruct (List.find _ (target_path m t)) as [e|] eqn:Hf; [|done].
  apply List.find_some in Hf as [Hin _].
  rewrite Forall_forall in H. by apply H.
Qed.

Lemma item_element_keyless multi d :
  truthy_key (prop_key d) = false -> dataset (item_element multi d) = [].
Proof.
  intros Hk. unfold item_element. rewrite Hk.
  unfold Menubox2ItemRenderer_create. rewrite Hk.
  destruct multi, (prop_checked d) as [[|]|], (prop_enabled d) as [[|]|],
    (Nat.ltb 0 (length (prop_cssClasses d))); done.
Qed.

Lemma item_element_checked multi d :
  prop_checked d = Some true ->
  ClassList.contains "checked" (classList (item_element multi d)) = true.
Proof.
  intros Hc. unfold item_element. rewrite Hc.
  destruct (prop_enabled d) as [[|]|]; simpl;
    rewrite ?(contains_add_ne "disabled" "checked") by done; apply contains_add_eq.
Qed.

(** C10.  When the constructor returns, the item collection of the new
    menubox is what results from adding, in the order of the definition,
    exactly the entries that are no separator and carry a truthy key, each
    under its key and referring to the node rendered for it: every entry of
    the collection comes from such a definition, every such definition has
    its key in the collection, and with distinct keys the collection lists
    them in definition order.  An entry without key but with [checked] set
    is rendered with the class [checked], is never among the checked items
    and a click on it resolves to no item. *)
Theorem constructor_collects_keyed_items (id : string) (options : Menubox2Definition)
    (forced : option SubmenuOverride) (parent : option ref) (w w' : World) (r : ref) :
  new_Menubox2 id options forced parent w = Some (r, w') ->
  exists m, heap w' !! r = Some m
    /\ items m = collect (opt_items options) 0 []
    /\ (forall k i, In (k, i) (items m) ->
          exists d, opt_items options !! i = Some d
            /\ enters_collection d = true /\ prop_key d = Some k)
    /\ (forall d, In d (opt_items options) -> enters_collection d = true ->
          JSMap.has (default "" (prop_key d)) (items m) = true)
    /\ (NoDup (map fst (entering (opt_items options) 0)) ->
          items m = entering (opt_items options) 0)
    /\ (forall i d,
          opt_items options !! i = Some d -> separator d = false ->
          truthy_key (prop_key d) = false -> prop_checked d = Some true ->
          exists menuItem,
            item_at m i = Some menuItem
            /\ Item.checked menuItem = true
            /\ ~ In i (getCheckedItems m)
            /\ (forall fuel event, target event = OnNode i ->
                  onMenuItemClick fuel event r w' = Some w')).
Proof.
  intros Hnew.
  destruct (new_Menubox2_constructed options _ _ _ _ _ _ Hnew)
    as (_ & _ & m & Hl & Hshell & Hnodes & Hitems).
  exists m. split; [done|]. split; [done|].
  assert (Hfrom : forall k i, In (k, i) (items m) ->
            exists d, opt_items options !! i = Some d
              /\ enters_collection d = true /\ prop_key d = Some k).
  { intros k i Hin. rewrite Hitems in Hin.
    apply collect_elem in Hin as [[] | (d & _ & Hd & He & Hk)].
    rewrite Nat.sub_0_r in Hd. by exists d. }
  split; [done|]. split; [|split].
  - intros d Hin He. rewrite Hitems. apply collect_has. right. by exists d.
  - intros Hnd. rewrite Hitems. by apply (collect_distinct _ 0%nat []).
  - intros i d Hd Hsep Hk Hchk.
    destruct (Forall2_lookup_l _ _ _ _ _ Hnodes Hd) as (n & Hn & Hrend).
    unfold renders in Hrend. rewrite Hsep in Hrend.
    destruct Hrend as (it & -> & _ & _ & Hel & _).
    exists it. split; [by unfold item_at; rewrite Hn|]. split; [|split].
    + unfold Item.checked. rewrite Hel. by apply item_element_checked.
    + rewrite getCheckedItems_filter. intros Hin. apply filter_In in Hin as [Hin _].
      unfold JSMap.values in Hin. apply in_map_iff in Hin as ([k i'] & Hi & Hin).
      simpl in Hi. subst i'.
      destruct (Hfrom _ _ Hin) as (d' & Hd' & He & _).
      assert (d' = d) as -> by congruence.
      unfold enters_collection in He. rewrite Hsep, Hk in He. done.
    + intros fuel event Htarget. unfold onMenuItemClick. rewrite Hl, Htarget.
      rewrite clicked_key_none; [done|].
      unfold target_path. rewrite Hn. simpl.
      destruct (shell_datasets _ _ Hshell) as (Hb & Hw & Hi).
      destruct (blank_datasets id options forced parent) as (Hb0 & Hw0 & Hi0).
      repeat constructor.
      * rewrite Hel. by rewrite item_element_keyless.
      * by rewrite Hi, Hi0.
      * by rewrite Hw, Hw0.
      * by rewrite Hb, Hb0.
Qed.

Lemma constructor_collects_keyed_items_witness :
  exists w' m menuItem,
    new_Menubox2 "m1" Sample.m1 None None (initial_world Sample.document) = Some (0%nat, w')
    /\ heap w' !! 0%nat = Some m
    /\ items m = [("a", 0%nat); ("b", 1%nat); ("x", 2%nat)]
    /\ item_at m 4%nat = Some menuItem
    /\ Item.checked menuItem = true
    /\ ~ In 4%nat (getCheckedItems m)
    /\ onMenuItemClick 9 (Sample.pointer (OnNode 4)) 0%nat w' = Some w'.
Proof.
  destruct (new_Menubox2 "m1" Sample.m1 None None (initial_world Sample.document))
    as [[r w']|] eqn:Hnew; [|vm_compute in Hnew; discriminate].
  assert (r = 0%nat) as -> by (vm_compute in Hnew; congruence).
  destruct (constructor_collects_keyed_items _ _ _ _ _ _ _ Hnew)
    as (m & Hl & _ & _ & _ & Hdistinct & Hlabel).
  destruct (Hlabel 4%nat _ eq_refl eq_refl eq_refl eq_refl) as (it & Hit & Hc & Hn & Hclick).
  exists w', m, it. split; [done|]. split; [done|]. split.
  { rewrite Hdistinct; [reflexivity|].
    apply (bool_decide_unpack _). vm_compute. exact I. }
  split; [done|]. split; [done|]. split; [done|]. by apply Hclick.
Defined.

(** ** The submenu delay *)

Lemma submenuDelay_constructed id options forced parent w r w' :
  new_Menubox2 id options forced parent w = Some (r, w') ->
  exists m, heap w' !! r = Some m
    /\ submenuDelay m = submenuDelay_of (opt_submenuDelay options).
Proof.
  intros Hnew.
  destruct (new_Menubox2_constructed options _ _ _ _ _ _ Hnew)
    as (_ & _ & m & Hl & Hshell & _).
  exists m. split; [done|]. by apply (f_equal submenuDelay) in Hshell.
Qed.

(** C8 at the input that separates the code from the claim: a definition
    that supplies a submenu delay of 0 yields a menubox whose delay is 300,
    while one that supplies -5 yields the delay 0. *)
Theorem submenuDelay_zero_is_replaced :
  submenuDelay_of (Some 0) = 300 /\ submenuDelay_of (Some (-5)) = 0
  /\ exists r w m,
       new_Menubox2 "m"
         {| opt_css := None; opt_position := None; opt_adjustment := [];
            opt_transistions := []; opt_selectMode := None; opt_callback := None;
            opt_items := []; opt_submenuDelay := Some 0 |}
         None None (initial_world Sample.document) = Some (r, w)
       /\ heap w !! r = Some m /\ submenuDelay m = 300.
Proof.
  split; [reflexivity|]. split; [reflexivity|].
  eexists _, _, _. split; [vm_compute; reflexivity|]. split; reflexivity.
Qed.

(** ** The hover timer *)

Lemma quiet_refl w : quiet w w.
Proof. unfold quiet. auto. Qed.

Lemma quiet_trans w1 w2 w3 : quiet w1 w2 -> quiet w2 w3 -> quiet w1 w3.
Proof.
  intros (Ht1 & Hc1 & Hn1) (Ht2 & Hc2 & Hn2).
  split; [|split; congruence].
  destruct Ht2 as [Ht2 | Ht2].
  - rewrite Ht2. done.
  - right. rewrite Ht2. by apply cleared_eq.
Qed.

Lemma restyles_quiet w w' :
  restyles w w' -> timers w' = timers w \/ timers w' = cleared w -> quiet w w'.
Proof. intros Hrs Ht. split; [done|]. split; apply Hrs. Qed.

Lemma store_item_quiet r i it w : quiet w (store_item r i it w).
Proof. unfold store_item, quiet. destruct (heap w !! r); simpl; auto. Qed.

Lemma close_quiet fuel flag r w w' : close fuel flag r w = Some w' -> quiet w w'.
Proof.
  intros H. apply (proj1 (close_effect fuel)) in H as [Hrs Ht].
  apply restyles_quiet; [done|]. destruct flag; auto.
Qed.

Lemma popup_quiet fuel me ctx anchor r w w' :
  popup fuel me ctx anchor r w = Some w' -> quiet w w'.
Proof. intros H. apply popup_effect in H as [Hrs Ht]. apply restyles_quiet; auto. Qed.

Lemma onMenuItemClick_quiet fuel event r w w' :
  onMenuItemClick fuel event r w = Some w' -> quiet w w'.
Proof.
  unfold onMenuItemClick. destruct (heap w !! r) as [m|] eqn:Hl; [|done].
  destruct (get_opt _ _) as [i|]; [|intros [= <-]; apply quiet_refl].
  destruct (item_at m i) as [it|]; [|intros [= <-]; apply quiet_refl].
  destruct (Item.enabled it); [|intros [= <-]; apply quiet_refl].
  match goal with
  | |- context [close fuel false r ?x] => assert (Hq : quiet w x)
  end.
  { destruct (isMultiselect m), (_ && _), (callback m); simpl;
      unfold quiet, store_item; rewrite ?Hl; simpl; auto. }
  destruct (submenu it) as [s|].
  - intros H. apply popup_quiet in H. by eapply quiet_trans.
  - destruct (SelectMode_eqb _ _).
    + intros H. apply close_quiet in H. by eapply quiet_trans.
    + by intros [= <-].
Qed.

Lemma click_quiet fuel event r w w' : click fuel event r w = Some w' -> quiet w w'.
Proof.
  unfold click. destruct (heap w !! r) as [m|] eqn:Hl; [|done].
  destruct (match target event with OnNode i => _ | _ => None end) as [[cb i]|];
    [|apply onMenuItemClick_quiet].
  unfold item_onclick. rewrite Hl. destruct (item_at m i) as [it|]; [|done].
  destruct (Item.enabled it); [|intros [= <-]; apply quiet_refl].
  intros H. apply close_quiet in H. eapply quiet_trans; [|exact H].
  unfold quiet. simpl. auto.
Qed.

(** Every event other than a hover or a timer coming due is quiet. *)
Lemma step_quiet w ev w' :
  step w ev = Some w' -> ~ is_hover ev -> (forall tid, ev <> TimerFires tid) -> quiet w w'.
Proof.
  intros Hstep Hh Hf. destruct ev; unfold step in Hstep.
  - destruct (new_Menubox2 id options None None w) as [[r w1]|] eqn:Hnew; [|done].
    injection Hstep as <-.
    destruct (new_Menubox2_constructed options _ _ _ _ _ _ Hnew) as (_ & Hext & _).
    split; [left; apply Hext|]. split; apply Hext.
  - eapply popup_quiet. exact Hstep.
  - eapply close_quiet. exact Hstep.
  - unfold toggle in Hstep. destruct (heap w !! r) as [m|]; [|done].
    destruct (negb (is_visible m)).
    + destruct (popup _ _ _ _ _ _) as [w1|] eqn:E; [|done].
      injection Hstep as <-. eapply popup_quiet. exact E.
    + destruct (close _ _ _ _) as [w1|] eqn:E; [|done].
      injection Hstep as <-. eapply close_quiet. exact E.
  - apply (proj2 (close_effect _)) in Hstep as [Hrs Ht]. apply restyles_quiet; auto.
  - apply closeAll_effect in Hstep as [Hrs Ht]. apply restyles_quiet; auto.
  - eapply click_quiet. exact Hstep.
  - apply closeAll_effect in Hstep as [Hrs Ht]. apply restyles_quiet; auto.
  - apply closeAll_effect in Hstep as [Hrs Ht]. apply restyles_quiet; auto.
  - by destruct Hh.
  - destruct (heap w !! r); [|done]. injection Hstep as <-.
    apply restyles_quiet; [apply clearCurrentSubmenuTimer_restyles | by right].
  - destruct (heap w !! r) as [m|]; [|done]. destruct (item_at m i) as [it|]; [|done].
    destruct (Item.set_checked val it); [|done]. injection Hstep as <-.
    apply store_item_quiet.
  - destruct (heap w !! r) as [m|]; [|done]. destruct (item_at m i) as [it|]; [|done].
    destruct (Item.set_enabled val it); [|done]. injection Hstep as <-.
    apply store_item_quiet.
  - by destruct (Hf tid).
  - injection Hstep as <-. unfold quiet. simpl. auto.
Qed.

Lemma cleared_one_timer w : one_timer w -> cleared w = [].
Proof.
  intros [_ [Ht | (tid & task & Ht & Hc & Hpos)]]; unfold cleared, clearCurrentSubmenuTimer.
  - destruct (currentSubmenuTimerId w) as [tid|]; [|done].
    destruct (Nat.ltb 0 tid); [|done]. simpl. by rewrite Ht.
  - rewrite Hc. apply Nat.ltb_lt in Hpos. rewrite Hpos. simpl. rewrite Ht. simpl.
    by rewrite Nat.eqb_refl.
Qed.

Lemma quiet_one_timer w w' : quiet w w' -> one_timer w -> one_timer w'.
Proof.
  intros (Ht & Hc & Hn) Hone. pose proof (cleared_one_timer _ Hone) as Hcl.
  destruct Hone as [Hpos Hone]. split; [by rewrite Hn|].
  destruct Ht as [Ht | Ht]; rewrite Ht, ?Hcl, ?Hc; auto.
Qed.

Lemma quiet_no_timer w w' : quiet w w' -> timers w = [] -> timers w' = [].
Proof.
  intros ([Ht | Ht] & Hc & Hn) Hnil; rewrite Ht; [done|].
  unfold cleared, clearCurrentSubmenuTimer.
  destruct (currentSubmenuTimerId w) as [tid|]; [|done].
  destruct (Nat.ltb 0 tid); [|done]. simpl. by rewrite Hnil.
Qed.

(** A hover clears what is pending and arms at most the timer of the
    hovered item. *)
Lemma hover_effect w r i evt w' :
  step w (MouseEnterItem r i evt) = Some w' ->
  (timers w' = cleared w
   /\ currentSubmenuTimerId w' = currentSubmenuTimerId w /\ nextTimerId w' = nextTimerId w)
  \/ (exists task,
        timers w' = cleared w ++ [(nextTimerId w, task)]
        /\ task_box task = r /\ task_item task = i
        /\ currentSubmenuTimerId w' = Some (nextTimerId w)
        /\ nextTimerId w' = S (nextTimerId w)).
Proof.
  simpl. unfold item_onmouseenter.
  destruct (heap w !! r) as [m|]; [|done]. destruct (item_at m i) as [it|]; [|done].
  destruct (closeSubmenus _ _ w) as [w1|] eqn:Hcs; [|done].
  apply (proj2 (close_effect _)) in Hcs as [Hrs Ht].
  destruct (has_submenu it); intros [= <-].
  - right. eexists. simpl. rewrite Ht, (rs_next _ _ Hrs). repeat split; done.
  - left. split; [done|]. split; apply Hrs.
Qed.

Lemma timer_fires_effect w tid w' :
  step w (TimerFires tid) = Some w' ->
  (exists task, In (tid, task) (timers w))
  /\ timers w' = timers (clearTimeout tid w)
  /\ currentSubmenuTimerId w' = currentSubmenuTimerId w /\ nextTimerId w' = nextTimerId w.
Proof.
  simpl. unfold timer_fires.
  destruct (List.find _ (timers w)) as [[tid' task]|] eqn:Hf; [|done].
  apply List.find_some in Hf as [Hin Heq]. simpl in Heq. apply Nat.eqb_eq in Heq. subst tid'.
  destruct (heap (clearTimeout tid w) !! task_box task) as [m|]; [|done].
  destruct (item_at m (task_item task)) as [it|]; [|done].
  destruct (submenu it) as [s|]; [|done].
  destruct (heap (clearTimeout tid w) !! menubox it) as [owner|]; [|done].
  intros H. apply popup_effect in H as [Hrs Ht].
  split; [by exists task|]. split; [done|]. split; apply Hrs.
Qed.

Lemma step_one_timer w ev w' : step w ev = Some w' -> one_timer w -> one_timer w'.
Proof.
  intros Hstep Hone.
  destruct ev;
    try (eapply quiet_one_timer; [|exact Hone];
         eapply step_quiet; [exact Hstep | by intros [] | by intros ?]).
  - pose proof (cleared_one_timer _ Hone) as Hcl. destruct Hone as [Hpos _].
    apply hover_effect in Hstep as [(Ht & Hc & Hn) | (task & Ht & _ & _ & Hc & Hn)].
    + split; [by rewrite Hn|]. left. by rewrite Ht.
    + split; [rewrite Hn; lia|]. right. exists (nextTimerId w), task.
      rewrite Ht, Hcl. done.
  - apply timer_fires_effect in Hstep as (_ & Ht & Hc & Hn).
    destruct Hone as [Hpos Hone]. split; [by rewrite Hn|].
    rewrite Ht, Hc. simpl.
    destruct Hone as [-> | (tid' & task & -> & Hcur & Hp)]; [by left|]. simpl.
    destruct (negb (Nat.eqb tid' tid)); [|by left].
    right. by exists tid', task.
Qed.

Lemma run_one_timer evs : forall w w', run evs w = Some w' -> one_timer w -> one_timer w'.
Proof.
  induction evs as [|ev evs IH]; intros w w' Hrun Hone; unfold run in *; simpl in Hrun.
  - by injection Hrun as <-.
  - destruct (step w ev) as [w1|] eqn:Hstep; [|done].
    eapply IH; [exact Hrun|]. by eapply step_one_timer.
Qed.

Lemma classic_timer_event ev : (exists tid, ev = TimerFires tid) \/ (forall tid, ev <> TimerFires tid).
Proof. destruct ev; try (right; by intros ?). left. by eexists. Qed.

Lemma run_no_timer evs : forall w w',
  Forall (fun ev => ~ is_hover ev) evs -> run evs w = Some w' ->
  timers w = [] -> timers w' = [].
Proof.
  induction evs as [|ev evs IH]; intros w w' Hall Hrun Hnil; unfold run in *; simpl in Hrun.
  - by injection Hrun as <-.
  - inversion Hall as [|? ? Hev Hall']. subst.
    destruct (step w ev) as [w1|] eqn:Hstep; [|done].
    eapply IH; [exact Hall' | exact Hrun|].
    destruct (classic_timer_event ev) as [[tid ->] | Hnf].
    + apply timer_fires_effect in Hstep as ((task & Hin) & _). by rewrite Hnil in Hin.
    + eapply quiet_no_timer; [|exact Hnil]. by eapply step_quiet.
Qed.

Lemma initial_one_timer h : one_timer (initial_world h).
Proof. split; [simpl; lia | by left]. Qed.

(** C6.  In every world reached from a freshly loaded document at most one
    timer is pending.  A hover leaves nothing pending but, for an item with
    a submenu, the timer it has just armed; and once the pointer has left a
    menubox nothing is pending, no timer can come due, and none is pending
    after any further events that are not hovers. *)
Theorem one_hover_timer (h : Host) (evs : list Event) (w : World) :
  run evs (initial_world h) = Some w ->
  (length (timers w) <= 1)%nat
  /\ (forall r i evt w',
        step w (MouseEnterItem r i evt) = Some w' ->
        timers w' = []
        \/ exists task,
             timers w' = [(nextTimerId w, task)]
             /\ task_box task = r /\ task_item task = i)
  /\ (forall r w',
        step w (MouseLeave r) = Some w' ->
        timers w' = []
        /\ (forall tid, step w' (TimerFires tid) = None)
        /\ (forall evs' w'',
              Forall (fun ev => ~ is_hover ev) evs' ->
              run evs' w' = Some w'' -> timers w'' = [])).
Proof.
  intros Hrun.
  pose proof (run_one_timer _ _ _ Hrun (initial_one_timer h)) as Hone.
  pose proof (cleared_one_timer _ Hone) as Hcl.
  split; [|split].
  - destruct Hone as [_ [-> | (tid & task & -> & _)]]; simpl; lia.
  - intros r i evt w' Hstep.
    apply hover_effect in Hstep as [(Ht & _) | (task & Ht & Hb & Hi & _)].
    + left. by rewrite Ht.
    + right. exists task. by rewrite Ht, Hcl.
  - intros r w' Hstep.
    assert (Hnil : timers w' = []).
    { simpl in Hstep. destruct (heap w !! r); [|done]. by injection Hstep as <-. }
    split; [done|]. split.
    + intros tid. simpl. unfold timer_fires. by rewrite Hnil.
    + intros evs' w'' Hall Hrun'. by eapply run_no_timer.
Qed.

Lemma one_hover_timer_witness :
  exists w,
    run (Sample.setup ++
         [Popup 0%nat (Some (Sample.pointer Elsewhere)) JNull None;
          MouseEnterItem 0%nat 2%nat (Sample.pointer (OnNode 2));
          MouseEnterItem 0%nat 2%nat (Sample.pointer (OnNode 2))])
        (initial_world Sample.document) = Some w
    /\ timers w <> [] /\ (length (timers w) <= 1)%nat.
Proof.
  destruct (run _ (initial_world Sample.document)) as [w|] eqn:Hrun;
    [|vm_compute in Hrun; discriminate].
  exists w. split; [reflexivity|].
  pose proof (proj1 (one_hover_timer _ _ _ Hrun)) as Hlen.
  split; [|exact Hlen].
  vm_compute in Hrun. injection Hrun as <-. vm_compute. discriminate.
Defined.

(** * Further properties of the code *)

(** ** The delay of a constructed menubox *)

(** X1.  Whenever the constructor returns, the submenu delay of the new
    menubox is 300 if the definition supplies none or supplies 0, and the
    supplied value raised to at least 0 otherwise; it is never negative. *)
Theorem submenuDelay_of_definition (id : string) (options : Menubox2Definition)
    (forced : option SubmenuOverride) (parent : option ref) (w w' : World) (r : ref) :
  new_Menubox2 id options forced parent w = Some (r, w') ->
  exists m, heap w' !! r = Some m
    /\ submenuDelay m = match opt_submenuDelay options with
                        | None => 300
                        | Some d => if Z.eqb d 0 then 300 else Z.max d 0
                        end
    /\ 0 <= submenuDelay m.
Proof.
  intros Hnew. destruct (submenuDelay_constructed _ _ _ _ _ _ _ Hnew) as (m & Hl & Hd).
  exists m. split; [done|]. rewrite Hd. unfold submenuDelay_of.
  destruct (opt_submenuDelay options) as [d|]; [|split; [done | lia]].
  destruct (Z.eqb d 0); split; try done; lia.
Qed.

Lemma submenuDelay_of_definition_witness :
  exists w' m,
    new_Menubox2 "m2" Sample.m2 None None (initial_world Sample.document) = Some (0%nat, w')
    /\ heap w' !! 0%nat = Some m /\ submenuDelay m = 300.
Proof.
  destruct (new_Menubox2 "m2" Sample.m2 None None (initial_world Sample.document))
    as [[r w']|] eqn:Hnew; [|vm_compute in Hnew; discriminate].
  assert (r = 0%nat) as -> by (vm_compute in Hnew; congruence).
  destruct (submenuDelay_of_definition _ _ _ _ _ _ _ Hnew) as (m & Hl & Hd & _).
  exists w', m. split; [reflexivity|]. split; [exact Hl | exact Hd].
Defined.

(** ** [closeAll] and the document listeners *)



(** ** [closeSubmenus] *)



(** ** Clicks that the dispatch ignores or handles differently *)

(** X4.  The click dispatch ignores a click on a disabled item of the
    collection: no callback is called and nothing changes. *)
Theorem click_disabled_item (w : World) (r : ref) (m : Menubox2) (k : string) (i : nat)
    (menuItem : Menubox2Item) (event : MouseEvent) (fuel : nat) :
  well_formed w = true -> heap w !! r = Some m ->
  JSMap.get k (items m) = Some i -> item_at m i = Some menuItem ->
  Item.enabled menuItem = false -> target event = OnNode i ->
  onMenuItemClick fuel event r w = Some w.
Proof.
  intros Hwf Hl Hk Hit Hen Htarget. unfold onMenuItemClick. rewrite Hl, Htarget.
  rewrite (clicked_key_item _ _ _ _ _ _ Hwf Hl Hk Hit). simpl. by rewrite Hk, Hit, Hen.
Qed.

Lemma click_disabled_item_witness :
  well_formed Sample.world = true
  /\ onMenuItemClick 9 (Sample.pointer (OnNode 1)) 0%nat Sample.world = Some Sample.world.
Proof.
  split; [vm_compute; reflexivity|].
  eapply (click_disabled_item Sample.world 0%nat _ "b" 1%nat); vm_compute; reflexivity.
Defined.

(** X5.  In select mode [persistent] the click dispatch for an enabled item
    without submenu calls no callback and changes nothing: the mode is not
    among those for which [onMenuItemClick] calls the callback. *)
Theorem click_persistent_item (w : World) (r : ref) (m : Menubox2) (k : string) (i : nat)
    (menuItem : Menubox2Item) (event : MouseEvent) (fuel : nat) :
  well_formed w = true -> heap w !! r = Some m -> selectMode m = persistent ->
  JSMap.get k (items m) = Some i -> item_at m i = Some menuItem ->
  submenu menuItem = None -> target event = OnNode i ->
  onMenuItemClick fuel event r w = Some w.
Proof.
  intros Hwf Hl Hmode Hk Hit Hsub Htarget. unfold onMenuItemClick. rewrite Hl, Htarget.
  rewrite (clicked_key_item _ _ _ _ _ _ Hwf Hl Hk Hit). simpl. rewrite Hk, Hit.
  destruct (Item.enabled menuItem); [|done].
  unfold isMultiselect, has_submenu. by rewrite Hmode, Hsub.
Qed.

Lemma click_persistent_item_witness :
  well_formed Sample2.world = true
  /\ onMenuItemClick 13 (Sample.pointer (OnNode 0)) 4%nat Sample2.world
     = Some Sample2.world.
Proof.
  split; [vm_compute; reflexivity|].
  eapply (click_persistent_item Sample2.world 4%nat _ "s" 0%nat); vm_compute; reflexivity.
Defined.



(** X7.  In the multiselect modes the click dispatch for an enabled item
    without submenu closes nothing: every menubox is as visible as before.
    The callback is called, once and with the item, only in mode
    [multiselect_interactive] and only if the menubox has one. *)
Theorem click_multiselect_callback (w : World) (r : ref) (m : Menubox2) (k : string)
    (i : nat) (menuItem : Menubox2Item) (event : MouseEvent) (fuel : nat) :
  well_formed w = true -> heap w !! r = Some m -> isMultiselect m = true ->
  JSMap.get k (items m) = Some i -> item_at m i = Some menuItem ->
  Item.enabled menuItem = true -> submenu menuItem = None -> target event = OnNode i ->
  exists w', onMenuItemClick fuel event r w = Some w'
    /\ calls w' = match selectMode m, callback m with
                  | multiselect_interactive, Some cb => calls w ++ [(cb, (r, i))]
                  | _, _ => calls w
                  end
    /\ (forall b, visible w' b = visible w b).
Proof.
  intros Hwf Hl Hmulti Hk Hit Hen Hsub Htarget.
  unfold onMenuItemClick. rewrite Hl, Htarget.
  rewrite (clicked_key_item _ _ _ _ _ _ Hwf Hl Hk Hit). simpl.
  rewrite Hk, Hit, Hen, Hmulti. unfold has_submenu. rewrite Hsub.
  assert (Hvis : forall b it', visible (store_item r i it' w) b = visible w b).
  { intros b it'. unfold visible. destruct (decide (r = b)) as [<- | Hne].
    - rewrite (store_item_lookup _ _ _ _ _ Hl). by rewrite Hl.
    - by rewrite store_item_lookup_ne. }
  assert (Hcalls : forall it', calls (store_item r i it' w) = calls w).
  { intros it'. unfold store_item. by rewrite Hl. }
  unfold isMultiselect in Hmulti.
  destruct (selectMode m); try discriminate; simpl.
  - eexists. split; [reflexivity|].
    split; [apply Hcalls | intros b; apply Hvis].
  - destruct (callback m) as [cb|]; eexists; (split; [reflexivity|]).
    + split; [simpl; by rewrite Hcalls | intros b; apply Hvis].
    + split; [apply Hcalls | intros b; apply Hvis].
Qed.

Lemma click_multiselect_callback_witness :
  well_formed Sample2.world = true
  /\ exists w', onMenuItemClick 13 (Sample.pointer (OnNode 0)) 5%nat Sample2.world = Some w'
       /\ calls w' = calls Sample2.world ++ [(7%nat, (5%nat, 0%nat))].
Proof.
  split; [vm_compute; reflexivity|].
  edestruct click_multiselect_callback
    with (w := Sample2.world) (r := 5%nat) (k := "u") (i := 0%nat)
         (event := Sample.pointer (OnNode 0)) (fuel := 13%nat)
    as (w' & H1 & H2 & _); try (vm_compute; reflexivity).
  exists w'. split; [exact H1|]. rewrite H2. vm_compute. reflexivity.
Defined.

(** ** The root of a menubox *)

Lemma rootMenubox_spec fuel : forall r w m,
  well_formed w = true -> heap w !! r = Some m -> (r < fuel)%nat ->
  exists a, rootMenubox fuel r w = Some a /\ ancestor w r a /\ is_root w a
    /\ (forall a', ancestor w r a' -> is_root w a' -> a' = a).
Proof.
  induction fuel as [|fuel IH]; intros r w m Hwf Hl Hlt; [lia|].
  simpl. rewrite Hl. destruct (parentMenubox m) as [p|] eqn:Hp.
  - pose proof (wf_parent_lt _ _ _ _ Hwf Hl Hp) as Hpr.
    destruct (heap w !! p) as [mp|] eqn:Hlp.
    2: { apply lookup_ge_None in Hlp. apply lookup_lt_Some in Hl. lia. }
    destruct (IH p w mp Hwf Hlp) as (a & Ha & Hanc & Hroot & Huniq); [lia|].
    exists a. split; [done|]. split; [by eapply ancestor_parent|]. split; [done|].
    intros a' Ha' Hr'. destruct (ancestor_inv _ _ _ _ _ Hl Hp Ha') as [-> | Hup].
    + destruct Hr' as (m' & Hl' & Hp'). congruence.
    + by apply Huniq.
  - exists r. split; [done|]. split; [constructor|]. split; [by exists m|].
    intros a' Ha' _. by eapply ancestor_root.
Qed.

(** X8.  In a well-formed world the getter [rootMenubox] returns: its
    result is the one menubox on the chain of parents of the menubox that
    has no parent itself, and it is the menubox itself exactly when that
    has no parent. *)
Theorem rootMenubox_is_the_root (w : World) (r : ref) (m : Menubox2) (fuel : nat) :
  well_formed w = true -> heap w !! r = Some m -> (length (heap w) <= fuel)%nat ->
  exists a, rootMenubox fuel r w = Some a
    /\ ancestor w r a /\ is_root w a
    /\ (forall a', ancestor w r a' -> is_root w a' -> a' = a)
    /\ (a = r <-> parentMenubox m = None).
Proof.
  intros Hwf Hl Hfuel. pose proof (lookup_lt_Some _ _ _ Hl) as Hlt.
  destruct (rootMenubox_spec fuel r w m Hwf Hl) as (a & Ha & Hanc & Hroot & Huniq); [lia|].
  exists a. repeat (split; [done|]). split.
  - intros ->. destruct Hroot as (m' & Hl' & Hp'). congruence.
  - intros Hp. symmetry. apply Huniq; [constructor | by exists m].
Qed.

Lemma rootMenubox_is_the_root_witness :
  well_formed Sample.world = true
  /\ exists a, rootMenubox 9 1%nat Sample.world = Some a /\ is_root Sample.world a.
Proof.
  split; [vm_compute; reflexivity|].
  destruct (heap Sample.world !! 1%nat) as [m|] eqn:Hl; [|vm_compute in Hl; discriminate].
  edestruct rootMenubox_is_the_root
    with (w := Sample.world) (r := 1%nat) (m := m) (fuel := 9%nat)
    as (a & Ha & _ & Hroot & _); [vm_compute; reflexivity | exact Hl | vm_compute; lia |].
  exists a. split; [exact Ha | exact Hroot].
Defined.

(** ** The setters of an item *)

Lemma add_present token l :
  ClassList.contains token l = true -> ClassList.add token l = l.
Proof. intros H. unfold ClassList.add. by rewrite H. Qed.

Lemma remove_absent token l :
  ClassList.contains token l = false -> ClassList.remove token l = l.
Proof.
  unfold ClassList.contains, ClassList.remove.
  induction l as [|t l IH]; simpl; [done|].
  destruct (String.eqb token t); simpl; [done|]. intros H. by rewrite IH.
Qed.

Lemma toggle_toggle token force l :
  ClassList.toggle token force (ClassList.toggle token force l)
  = ClassList.toggle token force l.
Proof.
  destruct force; simpl.
  - apply add_present, contains_add_eq.
  - apply remove_absent, contains_remove_eq.
Qed.


(** X9.  Each of the two setters of an item changes only its own class:
    setting [checked] to a boolean leaves every class other than [checked],
    so also the enabled state, and the label, key and submenu as they were,
    and likewise for [enabled] and the class [disabled]; setting the same
    value twice gives the same item as setting it once. *)
Theorem setters_are_independent (it : Menubox2Item) (b : bool) :
  (exists it', Item.set_checked (JBool b) it = Returns it'
     /\ (forall token, token <> "checked" ->
           ClassList.contains token (classList (element it'))
           = ClassList.contains token (classList (element it)))
     /\ Item.enabled it' = Item.enabled it /\ Item.label it' = Item.label it
     /\ key it' = key it /\ submenu it' = submenu it
     /\ Item.set_checked (JBool b) it' = Returns it')
  /\ (exists it', Item.set_enabled (JBool b) it = Returns it'
     /\ (forall token, token <> "disabled" ->
           ClassList.contains token (classList (element it'))
           = ClassList.contains token (classList (element it)))
     /\ Item.checked it' = Item.checked it /\ Item.label it' = Item.label it
     /\ key it' = key it /\ submenu it' = submenu it
     /\ Item.set_enabled (JBool b) it' = Returns it').
Proof.
  split; (eexists; split; [reflexivity|]); simpl.
  - split; [by intros token Hne; apply contains_toggle_ne|].
    split; [unfold Item.enabled; simpl; by rewrite contains_toggle_ne|].
    repeat (split; [done|]). unfold Item.set_checked, set_element. simpl.
    by rewrite toggle_toggle.
  - split; [by intros token Hne; apply contains_toggle_ne|].
    split; [unfold Item.checked; simpl; by rewrite contains_toggle_ne|].
    repeat (split; [done|]). unfold Item.set_enabled, set_element. simpl.
    by rewrite toggle_toggle.
Qed.

(** ** Opening a submenu *)

Lemma popup_submenu_shows fuel mouseEvent ctx anchorElement r w m p :
  heap w !! r = Some m -> parentMenubox m = Some p -> toggles_visibility m = true ->
  exists w' m', popup fuel mouseEvent ctx anchorElement r w = Some w'
    /\ heap w' !! r = Some m' /\ context m' = ctx /\ is_visible m' = true
    /\ restyles w w' /\ timers w' = timers w
    /\ (forall b, b <> r -> heap w' !! b = heap w !! b).
Proof.
  intros Hl Hp Ht. unfold popup. rewrite Hl, Hp, Hl.
  match goal with
  | |- context [_setVisibility true r (store r ?x w)] => set (m2 := x)
  end.
  assert (Hl2 : heap (store r m2 w) !! r = Some m2) by (by eapply store_lookup_eq).
  rewrite (_setVisibility_eq _ _ _ _ Hl2).
  eexists _, _. split; [reflexivity|]. split; [by eapply store_lookup_eq|].
  split; [done|]. split.
  { apply is_visible_transit.
    by rewrite (frame_toggles m m2 (frame_popup (host w) r m mouseEvent ctx anchorElement)). }
  split; [|split; [done|]].
  - eapply restyles_trans; [|eapply store_restyles; [done | apply frame_transit]].
    eapply store_restyles; [done | apply frame_popup].
  - intros b Hb. rewrite store_lookup_ne by done. by apply store_lookup_ne.
Qed.

Lemma store_item_visible w r i it b : visible (store_item r i it w) b = visible w b.
Proof.
  unfold store_item. destruct (heap w !! r) as [m|] eqn:Hl; [|done].
  unfold visible. destruct (decide (r = b)) as [<- | Hne].
  - rewrite (store_lookup_eq _ _ _ _ Hl). by rewrite Hl.
  - by rewrite store_lookup_ne.
Qed.

Lemma store_item_calls w r i it : calls (store_item r i it w) = calls w.
Proof. unfold store_item. by destruct (heap w !! r). Qed.

Lemma store_item_timers w r i it : timers (store_item r i it w) = timers w.
Proof. unfold store_item. by destruct (heap w !! r). Qed.



Lemma get_Some_value k v (m : list (string * nat)) :
  JSMap.get k m = Some v -> In v (JSMap.values m).
Proof.
  induction m as [|[k' v'] m IH]; simpl; [done|].
  destruct (String.eqb k' k); [intros [= ->]; by left | intros H; right; by apply IH].
Qed.



(** ** What the constructor leaves behind *)

(** X12.  Whenever the constructor returns, the new menubox is a fresh
    object, allocated behind every object of the store, and the instance
    map holds it under the id given, whatever it held under that id before;
    no timer is armed and no callback called while it runs. *)
Theorem constructor_registers (id : string) (options : Menubox2Definition)
    (forced : option SubmenuOverride) (parent : option ref) (w w' : World) (r : ref) :
  new_Menubox2 id options forced parent w = Some (r, w') ->
  r = length (heap w) /\ heap w !! r = None
  /\ JSMap.get id (instances w') = Some r /\ registered w' r
  /\ timers w' = timers w /\ calls w' = calls w.
Proof.
  intros Hnew.
  destruct (new_Menubox2_constructed options _ _ _ _ _ _ Hnew) as (Hr & Hext & _).
  rewrite new_Menubox2_unfold in Hnew.
  destruct (__setItems _ _ _ _) as [w2|]; [|done].
  cbv zeta in Hnew.
  destruct (closeAll _ _) as [w4|] eqn:Hc; [|done]. injection Hnew as _ <-.
  apply closeAll_effect in Hc as [Hrs _].
  assert (Hget : JSMap.get id (instances w4) = Some r).
  { rewrite (rs_instances _ _ Hrs). simpl. by rewrite get_set_eq, Hr. }
  split; [done|]. split; [subst r; by apply lookup_ge_None|].
  split; [done|]. split; [by eapply get_Some_value|]. split; apply Hext.
Qed.

Lemma constructor_registers_witness :
  exists w',
    new_Menubox2 "m2" Sample.m2 None None (initial_world Sample.document) = Some (0%nat, w')
    /\ JSMap.get "m2" (instances w') = Some 0%nat.
Proof.
  destruct (new_Menubox2 "m2" Sample.m2 None None (initial_world Sample.document))
    as [[r w']|] eqn:Hnew; [|vm_compute in Hnew; discriminate].
  destruct (constructor_registers _ _ _ _ _ _ _ Hnew) as (Hr & _ & Hget & _).
  assert (r = 0%nat) as -> by (rewrite Hr; reflexivity).
  exists w'. split; [reflexivity | exact Hget].
Defined.

(** ** The initial state of an item *)

Lemma contains_add token token' l :
  ClassList.contains token' (ClassList.add token l)
  = String.eqb token' token || ClassList.contains token' l.
Proof.
  destruct (String.eqb token' token) eqn:E; simpl.
  - apply String.eqb_eq in E as ->. apply contains_add_eq.
  - apply contains_add_ne. intros ->. by rewrite String.eqb_refl in E.
Qed.

Lemma contains_add_all tokens : forall token l,
  ClassList.contains token (ClassList.add_all tokens l)
  = ClassList.contains token tokens || ClassList.contains token l.
Proof.
  induction tokens as [|t ts IH]; intros token l; [done|].
  change (ClassList.add_all (t :: ts) l) with (ClassList.add_all ts (ClassList.add t l)).
  rewrite IH, contains_add.
  change (ClassList.contains token (t :: ts))
    with (String.eqb token t || ClassList.contains token ts).
  by destruct (String.eqb token t), (ClassList.contains token ts).
Qed.

Lemma add_class_contains token t e :
  ClassList.contains token (classList (add_class t e))
  = String.eqb token t || ClassList.contains token (classList e).
Proof. unfold add_class. simpl. apply contains_add. Qed.

Lemma create_classes d token :
  ClassList.contains token (classList (Menubox2ItemRenderer_create d))
  = String.eqb token (if truthy_key (prop_key d) then "menubox-item" else "menubox-label")
    || ClassList.contains token (prop_cssClasses d).
Proof.
  unfold Menubox2ItemRenderer_create.
  destruct (prop_cssClasses d) as [|c cs].
  - cbn. by rewrite orb_false_r.
  - change (Nat.ltb 0 (length (c :: cs))) with true. cbv iota.
    cbn [classList set_classList set_textContent].
    rewrite contains_add_all, contains_add.
    change (ClassList.contains token (classList createElement)) with false.
    by destruct (String.eqb token _), (ClassList.contains token (c :: cs)).
Qed.

Lemma item_element_label multi d : textContent (item_element multi d) = label_of d.
Proof.
  unfold item_element, Menubox2ItemRenderer_create, label_of.
  by destruct multi, (truthy_key (prop_key d)), (prop_submenu d),
    (prop_checked d) as [[|]|], (prop_enabled d) as [[|]|],
    (Nat.ltb 0 (length (prop_cssClasses d))).
Qed.

Lemma item_element_classes multi d token :
  ClassList.contains token (classList (item_element multi d))
  = (match prop_enabled d with Some false => String.eqb token "disabled" | _ => false end)
    || (match prop_checked d with Some true => String.eqb token "checked" | _ => false end)
    || (multi && String.eqb token "multiselect")
    || (truthy_key (prop_key d)
        && match prop_submenu d with Some _ => String.eqb token "submenuitem" | None => false end)
    || String.eqb token (if truthy_key (prop_key d) then "menubox-item" else "menubox-label")
    || ClassList.contains token (prop_cssClasses d).
Proof.
  unfold item_element.
  destruct (prop_enabled d) as [[|]|], (prop_checked d) as [[|]|], multi,
    (truthy_key (prop_key d)) eqn:Hk, (prop_submenu d);
    rewrite ?add_class_contains;
    cbn [classList set_dataset]; rewrite ?add_class_contains, create_classes, Hk;
    cbn [orb andb]; rewrite ?orb_false_r, ?orb_assoc; reflexivity.
Qed.

(** X13.  Whenever the constructor returns, the entry at position [i] of
    the definition, if it is no separator, has become the item at position
    [i] of the new menubox: it belongs to that menubox, has the key of the
    entry, shows the label of the entry or else its key, is checked exactly
    if the entry sets [checked] to [true] or lists the class [checked], and
    is enabled unless the entry sets [enabled] to [false] or lists the
    class [disabled]. *)
Theorem constructed_item_state (id : string) (options : Menubox2Definition)
    (forced : option SubmenuOverride) (parent : option ref) (w w' : World) (r : ref)
    (i : nat) (d : Menubox2ItemProperties) :
  new_Menubox2 id options forced parent w = Some (r, w') ->
  opt_items options !! i = Some d -> separator d = false ->
  exists m it, heap w' !! r = Some m /\ item_at m i = Some it
    /\ menubox it = r /\ key it = prop_key d
    /\ Item.label it = label_of d
    /\ Item.checked it
       = (match prop_checked d with Some true => true | _ => false end)
         || ClassList.contains "checked" (prop_cssClasses d)
    /\ Item.enabled it
       = negb ((match prop_enabled d with Some false => true | _ => false end)
               || ClassList.contains "disabled" (prop_cssClasses d)).
Proof.
  intros Hnew Hd Hsep.
  destruct (new_Menubox2_constructed options _ _ _ _ _ _ Hnew)
    as (_ & _ & m & Hl & _ & Hren & _).
  destruct (Forall2_lookup_l _ _ _ i d Hren Hd) as (n & Hn & Hrn).
  unfold renders in Hrn. rewrite Hsep in Hrn.
  destruct Hrn as (it & -> & Hkey & Hbox & Hel & _).
  exists m, it. split; [done|]. split; [unfold item_at; by rewrite Hn|].
  split; [done|]. split; [done|].
  split; [unfold Item.label; rewrite Hel; apply item_element_label|].
  unfold Item.checked, Item.enabled. rewrite Hel, !item_element_classes.
  split.
  - by destruct (prop_enabled d) as [[|]|], (prop_checked d) as [[|]|], (isMultiselect m),
      (truthy_key (prop_key d)), (prop_submenu d).
  - destruct (prop_enabled d) as [[|]|], (prop_checked d) as [[|]|], (isMultiselect m),
      (truthy_key (prop_key d)), (prop_submenu d);
      by destruct (ClassList.contains "disabled" (prop_cssClasses d)).
Qed.

Lemma constructed_item_state_witness :
  exists w' m it,
    new_Menubox2 "m1" Sample.m1 None None (initial_world Sample.document) = Some (0%nat, w')
    /\ heap w' !! 0%nat = Some m /\ item_at m 1 = Some it
    /\ Item.label it = Some "B" /\ Item.enabled it = false.
Proof.
  destruct (new_Menubox2 "m1" Sample.m1 None None (initial_world Sample.document))
    as [[r w']|] eqn:Hnew; [|vm_compute in Hnew; discriminate].
  assert (r = 0%nat) as -> by (vm_compute in Hnew; congruence).
  edestruct constructed_item_state with (i := 1%nat)
    as (m & it & Hl & Hit & _ & _ & Hlabel & _ & Hen); [exact Hnew | reflexivity | reflexivity |].
  exists w', m, it. split; [reflexivity|]. split; [exact Hl|]. split; [exact Hit|].
  split; [exact Hlabel | exact Hen].
Defined.

(** ** Where [popup] places the menubox *)

Lemma adjusted_rect h r m a e :
  let rect := getBoundingClientRect h r (_adjustToAnchor h r m a e) in
  let mt := metrics h r in
  rect_left rect
  = (if adjustment_is "horizontal" "before" m then rect_left a - offsetWidth mt
     else if adjustment_is "horizontal" "right" m then rect_right a - offsetWidth mt
     else if adjustment_is "horizontal" "after" m then rect_right a
     else rect_left a)
  /\ rect_top rect
     = (if adjustment_is "vertical" "submenu-top" m
        then rect_top a - paddingTop mt - borderTopWidth mt
        else if adjustment_is "vertical" "above" m then rect_top a - offsetHeight mt
        else if adjustment_is "vertical" "top" m then rect_top a
        else if adjustment_is "vertical" "bottom" m then rect_bottom a - offsetHeight mt
        else rect_bottom a)
  /\ rect_width rect = offsetWidth mt /\ rect_height rect = offsetHeight mt.
Proof.
  intros rect mt. unfold rect, getBoundingClientRect.
  rewrite position_fixed_adjusted. unfold _adjustToAnchor. cbn [rect_left rect_top rect_width rect_height].
  rewrite style_px_set_eq, (style_px_set_ne "left" "top") by done.
  rewrite style_px_set_eq. fold mt.
  repeat split; destruct (position_fixed e); lia.
Qed.

(** X14.  The rectangle [popup] measures after placing the menubox lies, in
    viewport coordinates and whether the menubox is of fixed position or
    not, at the pointer when an event but no anchor is given, and against
    the anchor as the adjustment says when there is one: its right edge at
    the left or right edge of the anchor for [before] and [right], its left
    edge at the right or left edge of the anchor for [after] and else; its
    bottom edge at the top or bottom of the anchor for [above] and [bottom],
    its top edge at the top of the anchor for [top], less padding and border
    for [submenu-top], and at the bottom of the anchor else.  With neither
    event nor anchor the element stays where it was. *)
Theorem popup_places_at_pointer_or_anchor (h : Host) (r : ref) (m : Menubox2)
    (mouseEvent : option MouseEvent) (anchorElement : option DOMRect) :
  let natural := getBoundingClientRect h r (placed_element h r m mouseEvent anchorElement) in
  (forall ev, mouseEvent = Some ev -> anchorElement = None ->
     rect_left natural = clientX ev /\ rect_top natural = clientY ev)
  /\ (forall a, anchorElement = Some a ->
        (if adjustment_is "horizontal" "before" m then rect_right natural = rect_left a
         else if adjustment_is "horizontal" "right" m then rect_right natural = rect_right a
         else if adjustment_is "horizontal" "after" m then rect_left natural = rect_right a
         else rect_left natural = rect_left a)
        /\ (if adjustment_is "vertical" "submenu-top" m
            then rect_top natural
                 = rect_top a - paddingTop (metrics h r) - borderTopWidth (metrics h r)
            else if adjustment_is "vertical" "above" m then rect_bottom natural = rect_top a
            else if adjustment_is "vertical" "top" m then rect_top natural = rect_top a
            else if adjustment_is "vertical" "bottom" m
                 then rect_bottom natural = rect_bottom a
            else rect_top natural = rect_bottom a))
  /\ (mouseEvent = None -> anchorElement = None ->
        placed_element h r m mouseEvent anchorElement = boxElement m).
Proof.
  intros natural. split; [|split].
  - intros ev -> ->. unfold natural, getBoundingClientRect, placed_element.
    cbn [rect_left rect_top].
    rewrite !position_fixed_set by done.
    rewrite style_px_set_eq, (style_px_set_ne "left" "top") by done.
    rewrite style_px_set_eq. unfold scrollPos_left, scrollPos_top.
    destruct (position_fixed (boxElement m)); lia.
  - intros a ->. unfold natural, placed_element.
    match goal with
    | |- context [_adjustToAnchor h r m a ?e1] =>
        destruct (adjusted_rect h r m a e1) as (Hx & Hy & Hw & Hh)
    end.
    unfold rect_right, rect_bottom in *. rewrite Hx, Hy, Hw, Hh.
    split.
    + repeat (destruct (adjustment_is "horizontal" _ m)); lia.
    + repeat (destruct (adjustment_is "vertical" _ m)); lia.
  - by intros -> ->.
Qed.

Lemma get_remove_eq {V} k (m : list (string * V)) : JSMap.get k (JSMap.remove k m) = None.
Proof.
  induction m as [|[k' v'] m IH]; simpl; [done|].
  destruct (String.eqb k' k) eqn:E; simpl; [done|]. by rewrite E.
Qed.

Lemma get_remove_ne {V} k k' (m : list (string * V)) :
  k <> k' -> JSMap.get k' (JSMap.remove k m) = JSMap.get k' m.
Proof.
  intros Hne. induction m as [|[k0 v0] m IH]; simpl; [done|].
  destruct (String.eqb k0 k) eqn:E; simpl.
  - apply String.eqb_eq in E as ->.
    destruct (String.eqb k k') eqn:E'; [|done].
    apply String.eqb_eq in E'. by destruct Hne.
  - by rewrite IH.
Qed.

(** X15.  [popup] first resets the item list: it is scrolled to the top and
    holds neither a height nor an [overflowY] of its own, whatever an
    earlier call left there.  If the measured rectangle does not exceed the
    viewport to the right and to the bottom, the menubox stays as placed and
    the item list stays as reset; and a rectangle that does not exceed the
    bottom never gets a scrolling item list, even when it is taller than
    the viewport. *)
Theorem popup_without_overflow (h : Host) (r : ref) (m : Menubox2)
    (mouseEvent : option MouseEvent) (anchorElement : option DOMRect) :
  let e := placed_element h r m mouseEvent anchorElement in
  let natural := getBoundingClientRect h r e in
  let clamped :=
    clamp_to_viewport h r (scrollPos_top h m) (scrollPos_left h m) natural e
      (reset_itemsElement m) in
  (style_get "height" (reset_itemsElement m) = None
   /\ style_get "overflowY" (reset_itemsElement m) = None
   /\ scrollTop (reset_itemsElement m) = 0)
  /\ (rect_right natural <= visualViewport_width h ->
      rect_bottom natural <= visualViewport_height h ->
      clamped = (e, reset_itemsElement m))
  /\ (rect_bottom natural <= visualViewport_height h ->
      snd clamped = reset_itemsElement m
      /\ style_get "top" (fst clamped) = style_get "top" e)
  /\ (rect_right natural <= visualViewport_width h ->
      style_get "left" (fst clamped) = style_get "left" e).
Proof.
  intros e natural clamped. split; [|split; [|split]].
  - unfold reset_itemsElement, style_get, style_clear. simpl.
    rewrite (get_remove_ne "overflowY" "height") by done.
    by rewrite !get_remove_eq.
  - intros Hr Hb. unfold clamped, clamp_to_viewport.
    destruct (Z.ltb_spec (visualViewport_width h) (rect_right natural)); [lia|].
    destruct (Z.ltb_spec (visualViewport_height h) (rect_bottom natural)); [lia|]. done.
  - intros Hb. unfold clamped, clamp_to_viewport.
    destruct (Z.ltb_spec (visualViewport_height h) (rect_bottom natural)); [lia|].
    simpl. split; [done|].
    destruct (Z.ltb _ _); [|done]. by rewrite (style_get_set_ne "left" "top").
  - intros Hr. unfold clamped, clamp_to_viewport.
    destruct (Z.ltb_spec (visualViewport_width h) (rect_right natural)); [lia|].
    repeat (destruct (Z.ltb _ _)); simpl; rewrite ?(style_get_set_ne "top" "left") by done;
      done.
Qed.

(** ** Submenus built by the item constructor *)

Lemma shell_boxId m m' : shell m' = shell m -> boxId m' = boxId m.
Proof. intros H. by apply (f_equal boxId) in H. Qed.

Lemma shell_callback m m' : shell m' = shell m -> callback m' = callback m.
Proof. intros H. by apply (f_equal callback) in H. Qed.

Lemma shell_parent m m' : shell m' = shell m -> parentMenubox m' = parentMenubox m.
Proof. intros H. by apply (f_equal parentMenubox) in H. Qed.

Lemma shell_adjustment m m' : shell m' = shell m -> adjustment m' = adjustment m.
Proof. intros H. by apply (f_equal adjustment) in H. Qed.

Lemma shell_classList m m' :
  shell m' = shell m -> classList (boxElement m') = classList (boxElement m).
Proof. intros H. by apply (f_equal (fun x => classList (boxElement x))) in H. Qed.

Lemma new_Menubox2Item_submenu mk properties parent w pm it w' sd :
  (forall id forced p w0 s w1, mk id sd forced p w0 = Some (s, w1) ->
     s = length (heap w0) /\ extends w0 w1
     /\ exists m, heap w1 !! s = Some m /\ shell m = shell (blank_menubox id sd forced p)) ->
  heap w !! parent = Some pm ->
  truthy_key (prop_key properties) = true -> prop_submenu properties = Some sd ->
  new_Menubox2Item mk properties parent w = Some (it, w') ->
  exists s ms, submenu it = Some s /\ onclick it = None /\ (parent < s)%nat
    /\ heap w' !! s = Some ms
    /\ shell ms
       = shell (blank_menubox
                  (boxId pm +:+ "." +:+ default "" (prop_key properties))%string sd
                  (Some {| forced_adjustment :=
                             [("horizontal", "after"); ("vertical", "submenu-top")];
                           forced_css := ["submenubox"];
                           forced_callback := callback pm |})
                  (Some parent)).
Proof.
  intros Hmk Hl Hk Hsd. unfold new_Menubox2Item. rewrite Hl, Hk, Hsd.
  destruct (mk _ sd _ _ w) as [[s w1]|] eqn:Hcall; [|done].
  destruct (Hmk _ _ _ _ _ _ Hcall) as (Hs & Hext & ms & Hls & Hsh).
  destruct (ext_frame _ _ Hext _ _ Hl) as (pm' & -> & Hf).
  intros [= <- <-]. exists s, ms. simpl.
  split; [done|]. split; [done|]. split; [|done].
  apply lookup_lt_Some in Hl. lia.
Qed.

Lemma __setItems_submenus mk self : forall itemDefs,
  (forall p sd, In p itemDefs -> prop_submenu p = Some sd ->
     forall id forced q w0 s w1, mk id sd forced q w0 = Some (s, w1) ->
       s = length (heap w0) /\ extends w0 w1
       /\ exists m, heap w1 !! s = Some m /\ shell m = shell (blank_menubox id sd forced q)) ->
  forall w m0 w',
    heap w !! self = Some m0 ->
    __setItems mk self itemDefs w = Some w' ->
    forall j d sd,
      itemDefs !! j = Some d -> separator d = false ->
      truthy_key (prop_key d) = true -> prop_submenu d = Some sd ->
      exists m' it s ms,
        heap w' !! self = Some m'
        /\ item_at m' (length (nodes m0) + j) = Some it
        /\ submenu it = Some s /\ onclick it = None /\ (self < s)%nat
        /\ heap w' !! s = Some ms
        /\ shell ms
           = shell (blank_menubox
                      (boxId m0 +:+ "." +:+ default "" (prop_key d))%string sd
                      (Some {| forced_adjustment :=
                                 [("horizontal", "after"); ("vertical", "submenu-top")];
                               forced_css := ["submenubox"];
                               forced_callback := callback m0 |})
                      (Some self)).
Proof.
  induction itemDefs as [|d0 rest IH]; intros Hmk w m0 w' Hl Hrun j d sd Hj Hsep Hk Hsd;
    [done|].
  assert (Hmk' : forall p sd, In p rest -> prop_submenu p = Some sd ->
            forall id forced q w0 s w1, mk id sd forced q w0 = Some (s, w1) ->
              s = length (heap w0) /\ extends w0 w1
              /\ exists m, heap w1 !! s = Some m
                   /\ shell m = shell (blank_menubox id sd forced q)).
  { intros p sd' Hin. apply Hmk. by right. }
  assert (Hweak : forall l, (forall p, In p l -> In p (d0 :: rest)) ->
            forall p sd, In p l -> prop_submenu p = Some sd ->
            forall id forced q w0 s w1, mk id sd forced q w0 = Some (s, w1) -> extends w0 w1).
  { intros l Hsub p sd' Hin Hp id forced q w0 s w1 Hcall.
    by destruct (Hmk p sd' (Hsub p Hin) Hp _ _ _ _ _ _ Hcall) as (_ & Hext & _). }
  simpl in Hrun.
  assert (Hstep : exists wa wc mc n,
            extends_off self wa wc
            /\ heap wc !! self = Some mc /\ nodes mc = nodes m0 ++ [n]
            /\ shell mc = shell m0
            /\ __setItems mk self rest wc = Some w'
            /\ (separator d0 = false ->
                exists it, n = ItemNode it
                  /\ new_Menubox2Item mk d0 self w = Some (it, wa))).
  { destruct (separator d0) eqn:Hsep0.
    - set (n := HrNode (__newElement "menubox-separator")) in *.
      exists w, (appendChild self n w), (set_nodes (nodes m0 ++ [n]) m0), n.
      split; [apply appendChild_extends_off|].
      split; [unfold appendChild; rewrite Hl; by eapply store_lookup_eq|].
      repeat (split; [done|]). done.
    - destruct (new_Menubox2Item mk d0 self w) as [[it wa]|] eqn:Hitem; [|done].
      destruct (new_Menubox2Item_spec mk d0 self w m0 it wa) as (Hexta & _);
        [intros sd' Hsd'; eapply (Hweak [d0]); [by intros p [<- | []]; left | by left | exact Hsd']
        | done | done |].
      destruct (ext_frame _ _ Hexta _ _ Hl) as (ma & Hla & Hfa).
      destruct (frame_fields _ _ Hfa) as (Hna & Hia & Hsa).
      rewrite Hla in Hrun.
      set (n := ItemNode it) in *.
      set (mb := set_nodes (nodes ma ++ [n]) ma).
      assert (Hlb : heap (appendChild self n wa) !! self = Some mb).
      { unfold appendChild. rewrite Hla. by eapply store_lookup_eq. }
      destruct (truthy_key (prop_key d0)).
      + set (k := default "" (prop_key d0)) in *.
        set (mc := set_items (JSMap.set k (length (nodes ma)) (items mb)) mb).
        exists wa, (items_set self k (length (nodes ma)) (appendChild self n wa)), mc, n.
        split.
        { eapply extends_off_trans; [apply appendChild_extends_off|].
          apply items_set_extends_off. }
        split; [unfold items_set; rewrite Hlb; by eapply store_lookup_eq|].
        split; [simpl; by rewrite Hna|]. split; [done|]. split; [done|].
        intros _. by exists it.
      + exists wa, (appendChild self n wa), mb, n.
        split; [apply appendChild_extends_off|]. split; [done|].
        split; [simpl; by rewrite Hna|]. split; [done|]. split; [done|].
        intros _. by exists it. }
  destruct Hstep as (wa & wc & mc & n & Hoff & Hlc & Hnc & Hsc & Hrest & Hitem).
  destruct j as [|j'].
  - injection Hj as ->.
    destruct (Hitem Hsep) as (it & -> & Hnew).
    destruct (new_Menubox2Item_submenu mk d self w m0 it wa sd) as (s & ms & Hs & Hoc & Hlt & Hls & Hsh);
      [intros id forced p w0 s w1; apply (Hmk d sd); [by left | done] | done | done | done | done |].
    destruct (__setItems_spec mk self rest) with (w := wc) (m0 := mc) (w' := w')
      as (Hoff' & m' & new & Hl' & Hn' & _); [by apply (Hweak rest); intros; right | done | done |].
    assert (Hne : s <> self) by lia.
    destruct (exo_frame _ _ _ (extends_off_trans _ _ _ _ Hoff Hoff') _ _ Hne Hls)
      as (ms' & Hls' & Hfs').
    exists m', it, s, ms'. split; [done|]. split.
    { unfold item_at. rewrite Hn', Hnc, Nat.add_0_r.
      rewrite <- app_assoc. simpl. by rewrite list_lookup_middle. }
    repeat (split; [done|]). by rewrite (frame_shell _ _ Hfs').
  - simpl in Hj.
    destruct (IH Hmk' wc mc w' Hlc Hrest j' d sd Hj Hsep Hk Hsd)
      as (m' & it & s & ms & Hl' & Hit & Hs & Hoc & Hlt & Hls & Hsh).
    exists m', it, s, ms. split; [done|]. split.
    { rewrite Hnc, length_app in Hit. simpl in Hit.
      by replace (length (nodes m0) + S j')%nat with (length (nodes m0) + 1 + j')%nat by lia. }
    repeat (split; [done|]).
    by rewrite <- (shell_boxId _ _ Hsc), <- (shell_callback _ _ Hsc).
Qed.

(** X16.  Whenever the constructor returns, an entry of the definition that
    is no separator, has a truthy key and holds a submenu definition has
    become an item with a submenu and without a click handler of its own.
    The submenu is a menubox of the store whose parent is the new menubox and
    whose id is the id of the new menubox, a dot and the key; whatever the
    submenu definition says, its callback is the callback of the new
    menubox, its adjustment is [after] and [submenu-top], and its element has
    the class [submenubox]. *)
Theorem submenu_inherits_from_parent (id : string) (options : Menubox2Definition)
    (forced : option SubmenuOverride) (parent : option ref) (w w' : World) (r : ref)
    (i : nat) (d : Menubox2ItemProperties) (sd : Menubox2Definition) :
  new_Menubox2 id options forced parent w = Some (r, w') ->
  opt_items options !! i = Some d -> separator d = false ->
  truthy_key (prop_key d) = true -> prop_submenu d = Some sd ->
  exists m it s ms,
    heap w' !! r = Some m /\ item_at m i = Some it
    /\ submenu it = Some s /\ onclick it = None
    /\ heap w' !! s = Some ms
    /\ parentMenubox ms = Some r
    /\ boxId ms = (id +:+ "." +:+ default "" (prop_key d))%string
    /\ callback ms = callback m
    /\ adjustment ms = [("horizontal", "after"); ("vertical", "submenu-top")]
    /\ ClassList.contains "submenubox" (classList (boxElement ms)) = true.
Proof.
  intros Hnew Hd Hsep Hk Hsd.
  destruct (new_Menubox2_constructed options _ _ _ _ _ _ Hnew)
    as (Hr & _ & m & Hl & Hshell & _).
  rewrite new_Menubox2_unfold in Hnew.
  set (w1 := allocate id options forced parent w) in Hnew.
  destruct (__setItems new_Menubox2 (length (heap w)) (opt_items options) w1)
    as [w2|] eqn:Hloop; [|done].
  cbv zeta in Hnew.
  destruct (closeAll _ _) as [w4|] eqn:Hclose; [|done]. injection Hnew as _ <-.
  apply closeAll_effect in Hclose as [Hrs _].
  assert (Hl1 : heap w1 !! r = Some (blank_menubox id options forced parent)).
  { unfold w1. rewrite allocate_heap, Hr. by apply list_lookup_middle. }
  rewrite <- Hr in Hloop.
  destruct (__setItems_submenus new_Menubox2 r (opt_items options)) with
    (w := w1) (m0 := blank_menubox id options forced parent) (w' := w2)
    (j := i) (d := d) (sd := sd)
    as (m2 & it & s & ms & Hl2 & Hit & Hs & Hoc & Hlt & Hls & Hsh); try done.
  { intros p sd' _ _ id' forced' q w0 s w5 Hcall.
    destruct (new_Menubox2_constructed sd' _ _ _ _ _ _ Hcall) as (Hs & Hext & m' & Hl' & Hsh' & _).
    split; [done|]. split; [done|]. by exists m'. }
  destruct (restyles_lookup _ w4 r m2 Hrs Hl2) as (m4 & Hl4 & Hf4).
  assert (m4 = m) as -> by congruence.
  destruct (restyles_lookup _ w4 s ms Hrs Hls) as (ms4 & Hls4 & Hfs4).
  pose proof (eq_trans (frame_shell _ _ Hfs4) Hsh) as Hsh4.
  exists m, it, s, ms4. split; [done|].
  split; [by rewrite (frame_item_at _ _ i Hf4)|].
  repeat (split; [done|]).
  split; [by rewrite (shell_parent _ _ Hsh4)|].
  split; [by rewrite (shell_boxId _ _ Hsh4)|].
  split; [by rewrite (shell_callback _ _ Hsh4), (shell_callback _ _ Hshell)|].
  split; [by rewrite (shell_adjustment _ _ Hsh4)|].
  rewrite (shell_classList _ _ Hsh4). unfold blank_menubox.
  cbn [boxElement effective_css forced_css classList set_classList].
  rewrite contains_add_all. done.
Qed.

Lemma submenu_inherits_from_parent_witness :
  exists w' m it s ms,
    new_Menubox2 "m1" Sample.m1 None None (initial_world Sample.document) = Some (0%nat, w')
    /\ heap w' !! 0%nat = Some m /\ item_at m 2 = Some it /\ submenu it = Some s
    /\ heap w' !! s = Some ms /\ boxId ms = "m1.x" /\ callback ms = callback m.
Proof.
  destruct (new_Menubox2 "m1" Sample.m1 None None (initial_world Sample.document))
    as [[r w']|] eqn:Hnew; [|vm_compute in Hnew; discriminate].
  assert (r = 0%nat) as -> by (vm_compute in Hnew; congruence).
  edestruct submenu_inherits_from_parent with (i := 2%nat)
    as (m & it & s & ms & Hl & Hit & Hs & _ & Hls & _ & Hid & Hcb & _);
    [exact Hnew | reflexivity | reflexivity | reflexivity | reflexivity |].
  exists w', m, it, s, ms. split; [reflexivity|]. split; [exact Hl|]. split; [exact Hit|].
  split; [exact Hs|]. split; [exact Hls|]. split; [exact Hid | exact Hcb].
Defined.

(** ** The transition table *)

Lemma apply_transistions_get h v table key e :
  style_get key (apply_transistions h v table e) =
  match JSMap.get key (rev table) with
  | Some entry => Some (transistion_value h v (key, entry))
  | None => style_get key e
  end.
Proof.
  induction table as [|[k p] table IH] using rev_ind; [done|].
  unfold apply_transistions in *. rewrite fold_left_app. simpl.
  rewrite get_rev_snoc. simpl.
  destruct (String.eqb k key) eqn:E.
  - apply String.eqb_eq in E. subst k. by rewrite style_get_set_eq.
  - rewrite style_get_set_ne; [apply IH|].
    intros ->. by rewrite String.eqb_refl in E.
Qed.


